(** * Point-Cloud-Stream: label fusion and pipeline controller

    A shallow embedding of

    - [utils/segmentation.py], function [segment_pcd_from_2d]: the vectorised
      torch pipeline that projects a point cloud through a pinhole camera and
      gives every point the class of the segmentation mask covering it;
    - [pipeline_controller.py], class [PipelineController]: the UI callbacks
      that drive the capture flags, the capture condition variable and the
      depth-pick protocol.

    Tensors are lists, a tensor operation that can raise returns a [result],
    and the controller's methods are state transformers over an explicit
    [World]. *)

From Stdlib Require Import ZArith QArith Qround Qabs Lia Lqa String.
From stdpp Require Import base tactics option list pretty.
From stdpp Require Import gmap.

Local Open Scope Z_scope.

(** ** Exceptions *)

Inductive exn := IndexError | RuntimeError.

Inductive result (A : Type) : Type :=
| Ok (a : A)
| Raise (e : exn).
Arguments Ok {A} a.
Arguments Raise {A} e.

#[global] Instance result_ret : MRet result := @Ok.
#[global] Instance result_bind : MBind result := λ A B f m,
  match m with Ok a => f a | Raise e => Raise e end.

(** ** Floating-point scalars

    The tensors hold IEEE floats. The pipeline only adds, multiplies and
    divides them, compares them, rounds them to an integer and casts them;
    these operations are what the embedding is parametric in, so that every
    theorem holds for the machine arithmetic as well as for exact
    arithmetic. *)

Class Float (F : Type) := {
  fzero : F;                       (* 0 *)
  fhalf : F;                       (* 0.5 *)
  fone : F;                        (* 1.0 *)
  fadd : F → F → F;
  fmul : F → F → F;
  fdiv : F → F → F;
  fgt : F → F → bool;              (* a > b, False when either is NaN *)
  fle : F → F → bool;              (* a <= b, False when either is NaN *)
  feq : F → F → bool;              (* a == b, False when either is NaN *)
  isnan : F → bool;
  round_long : F → Z;              (* torch.round(a).long() *)
  to_int : F → Z                   (* a.int() *)
}.

(** The order facts of IEEE comparison that the proofs rely on. *)
Class FloatLaws (F : Type) `{Float F} : Prop := {
  feq_not_fgt a b : feq a b = true → fgt a b = false;
  fle_not_fgt a b : fle a b = true → fgt a b = false;
  fle_nonnan a b : fle a b = true → isnan a = false ∧ isnan b = false;
  fle_total a b : isnan a = false → isnan b = false →
                  fle a b = false → fle b a = true;
  fle_trans a b c : fle a b = true → fle b c = true → fle a c = true;
  feq_one : feq fone fone = true
}.

(** ** Tensor operations *)

Module Tensor.
Section Ops.
Context {A : Type}.

(** [x[mask]] with a boolean mask keeps the entries whose mask bit is set. *)
Fixpoint select (l : list A) (m : list bool) : list A :=
  match l, m with
  | x :: l', b :: m' => if b then x :: select l' m' else select l' m'
  | _, _ => []
  end.

(** The mask must have the shape of the indexed tensor. *)
Definition bool_index (l : list A) (m : list bool) : result (list A) :=
  if decide (length l = length m) then Ok (select l m) else Raise IndexError.

(** [x[ids]] with an integer index tensor. *)
Fixpoint gather (l : list A) (ids : list nat) : result (list A) :=
  match ids with
  | [] => Ok []
  | i :: ids' =>
      match l !! i with
      | Some x => xs ← gather l ids'; Ok (x :: xs)
      | None => Raise IndexError
      end
  end.

(** Values assigned through an index are broadcast to the index's shape. *)
Definition broadcast_to (n : nat) (vals : list A) : result (list A) :=
  if decide (length vals = n) then Ok vals
  else match vals with
       | [x] => Ok (replicate n x)
       | _ => Raise RuntimeError
       end.

Fixpoint put_each (dst : list A) (ivs : list (nat * A)) : result (list A) :=
  match ivs with
  | [] => Ok dst
  | (i, x) :: ivs' =>
      if decide (i < length dst)%nat then put_each (<[i:=x]> dst) ivs'
      else Raise IndexError
  end.

(** [dst[idx] = vals]. *)
Definition index_put (dst : list A) (idx : list nat) (vals : list A)
  : result (list A) :=
  vals' ← broadcast_to (length idx) vals;
  put_each dst (zip idx vals').
End Ops.

(** The entries of a tensor paired with their positions, counted from [o]. *)
Definition tag {A : Type} (o : nat) (l : list A) : list (nat * A) :=
  zip (seq o (length l)) l.

(** [torch.nonzero(m).squeeze(1)]: the positions of the set bits, ascending. *)
Fixpoint nonzero_from (o : nat) (m : list bool) : list nat :=
  match m with
  | [] => []
  | b :: m' => if b then o :: nonzero_from (S o) m' else nonzero_from (S o) m'
  end.
Definition nonzero (m : list bool) : list nat := nonzero_from 0 m.

Section Max.
Context `{Float F}.

(** One iteration of the reduction loop of [torch.max(_, dim)] at mask
    index [k]: the running maximum is replaced when [value <= max] fails,
    and the loop is left once a NaN has been stored. *)
Definition max_step (k : nat) (cur : F * nat) (value : F) : F * nat :=
  if isnan cur.1 then cur
  else if negb (fle value cur.1) then (value, k) else cur.

Fixpoint max_rows (k : nat) (acc : list (F * nat)) (rows : list (list F))
  : list (F * nat) :=
  match rows with
  | [] => acc
  | r :: rows' => max_rows (S k) (zip_with (max_step k) acc r) rows'
  end.

(** [torch.max(t, dim=0)] of a tensor of shape (K, M), given as K rows:
    the values and the indices, each of shape (M,). With K = 0 the
    reduction dimension has size zero and the call raises ("Expected
    reduction dim 0 to have non-zero size"). *)
Definition max_dim0 (rows : list (list F)) : result (list F * list nat) :=
  match rows with
  | [] => Raise IndexError
  | r0 :: rest =>
      let cols := max_rows 1 ((λ x, (x, 0%nat)) <$> r0) rest in
      Ok (cols.*1, cols.*2)
  end.

(** The same loop over the scores of one pixel. *)
Fixpoint max_scan (k : nat) (cur : F * nat) (vals : list F) : F * nat :=
  match vals with
  | [] => cur
  | x :: vals' => max_scan (S k) (max_step k cur x) vals'
  end.

Definition max_column (vals : list F) : option (F * nat) :=
  match vals with
  | [] => None
  | x :: vals' => Some (max_scan 1 (x, 0%nat) vals')
  end.

(** What the reduction loop knows of [vals] once it has visited the
    entries below position [n] and holds [cur]: [cur] is an entry below
    [n]; the entries before it are numbers that [cur] does not reach down
    to; and unless [cur] is NaN it bounds every visited entry. *)
Definition seen (vals : list F) (n : nat) (cur : F * nat) : Prop :=
  vals !! cur.2 = Some cur.1 ∧ (cur.2 < n)%nat ∧
  (∀ j x, (j < cur.2)%nat → vals !! j = Some x →
          isnan x = false ∧ fle cur.1 x = false) ∧
  (isnan cur.1 = false →
   ∀ j x, (j < n)%nat → vals !! j = Some x → fle x cur.1 = true).

(** Two scores tie: they compare equal, or both are NaN. *)
Definition same_score (a b : F) : bool :=
  (isnan a && isnan b) || (fle a b && fle b a).
End Max.
End Tensor.

(** ** utils/segmentation.py *)

Module Segmentation.
Import Tensor.

Section Fusion.
Context `{Float F}.
(** The colour image and the detector's raw masks are opaque; [shape] is
    [color.shape[:2]] and [interpolate m H W] is the bilinear resize of one
    mask to H x W, read at row [v] and column [u]. *)
Context {Image RawMask : Type}.
Variable shape : Image → nat * nat.
Variable interpolate : RawMask → nat → nat → Z → Z → F.

Definition point : Type := F * F * F.
Definition matrix : Type := nat → nat → F.

(** [res[0]] of the detector: [masks.data] and [boxes.cls]. *)
Record Results := { masks_data : list RawMask; boxes_cls : list F }.

(** One row of [extrinsic @ [x, y, z, 1]]. *)
Definition row_dot (extrinsic : matrix) (i : nat) (p : point) : F :=
  let '(x, y, z) := p in
  fadd (fadd (fadd (fmul (extrinsic i 0%nat) x) (fmul (extrinsic i 1%nat) y))
             (fmul (extrinsic i 2%nat) z))
       (fmul (extrinsic i 3%nat) fone).

(** A row of [points_cam]. *)
Definition to_camera (extrinsic : matrix) (p : point) : point :=
  (row_dot extrinsic 0 p, row_dot extrinsic 1 p, row_dot extrinsic 2 p).

Definition depth (pc : point) : F := pc.2.

Definition project_u (intrinsic : matrix) (pc : point) : Z :=
  let '(x, _, z) := pc in
  round_long (fadd (fdiv (fmul x (intrinsic 0%nat 0%nat)) z) (intrinsic 0%nat 2%nat)).

Definition project_v (intrinsic : matrix) (pc : point) : Z :=
  let '(_, y, z) := pc in
  round_long (fadd (fdiv (fmul y (intrinsic 1%nat 1%nat)) z) (intrinsic 1%nat 2%nat)).

Definition in_bounds_px (W H : nat) (u v : Z) : bool :=
  (0 <=? u) && (u <? Z.of_nat W) && (0 <=? v) && (v <? Z.of_nat H).

Definition threshold : F := fhalf.

(** [segment_pcd_from_2d(model, intrinsic, extrinsic, pcd, color)], line by
    line. [pcd] stands for the (N, 3) positions that either branch of the
    [isinstance] test binds to [points_3d]; the choice of device and the
    dlpack conversions of [o3d_t_to_torch] leave the values as they are. *)
Definition segment_pcd_from_2d (model : Image → Results)
    (intrinsic extrinsic : matrix) (pcd : list point) (color : Image)
  : result (list Z) :=
  let res := model color in
  let masks := masks_data res in
  let '(H, W) := shape color in
  let masks_resized := (λ m, interpolate m H W) <$> masks in
  let points_3d := pcd in
  let N := length points_3d in
  let points_cam := to_camera extrinsic <$> points_3d in
  let valid_depth := (λ pc, fgt (depth pc) fzero) <$> points_cam in
  points_cam ← bool_index points_cam valid_depth;
  let indices := nonzero valid_depth in
  let u := project_u intrinsic <$> points_cam in
  let v := project_v intrinsic <$> points_cam in
  let in_bounds := zip_with (in_bounds_px W H) u v in
  u ← bool_index u in_bounds;
  v ← bool_index v in_bounds;
  indices ← bool_index indices in_bounds;
  let labels_per_mask := boxes_cls res in
  let mask_values := (λ m, zip_with m v u) <$> masks_resized in
  '(mask_scores, mask_ids) ← max_dim0 mask_values;
  let valid_mask := (λ s, fgt s threshold) <$> mask_scores in
  valid_indices ← bool_index indices valid_mask;
  let point_labels := replicate N (-1) in
  ids ← bool_index mask_ids valid_mask;
  picked ← gather labels_per_mask ids;
  index_put point_labels valid_indices (to_int <$> picked).

(** *** The algorithm read point by point

    What the specification describes for a single point (steps 2 to 6 of
    its label fusion algorithm), to be compared with the vectorised
    pipeline above. *)

Definition resized (model : Image → Results) (color : Image)
  : list (Z → Z → F) :=
  (λ m, interpolate m (shape color).1 (shape color).2) <$> masks_data (model color).

(** The scores of all masks at column [u], row [v], by mask index. *)
Definition scores_at (masks_resized : list (Z → Z → F)) (u v : Z) : list F :=
  (λ m, m v u) <$> masks_resized.

Definition class_of (labels_per_mask : list F) (k : nat) : Z :=
  match labels_per_mask !! k with Some c => to_int c | None => -1 end.

(** Every mask has a class id: [boxes.cls] is at least as long as
    [masks.data]. *)
Definition classes_cover (res : Results) : Prop :=
  (length (masks_data res) ≤ length (boxes_cls res))%nat.

(** A point passes the depth test and the bounds test. *)
Definition survives (intrinsic extrinsic : matrix) (color : Image)
    (p : point) : bool :=
  let pc := to_camera extrinsic p in
  fgt (depth pc) fzero
  && in_bounds_px (shape color).2 (shape color).1
       (project_u intrinsic pc) (project_v intrinsic pc).

(** The scores of the resized masks at the pixel of a point. *)
Definition pixel_scores (model : Image → Results)
    (intrinsic extrinsic : matrix) (color : Image) (p : point) : list F :=
  let pc := to_camera extrinsic p in
  scores_at (resized model color) (project_u intrinsic pc) (project_v intrinsic pc).

Definition spec_label (model : Image → Results)
    (intrinsic extrinsic : matrix) (color : Image) (p : point) : Z :=
  let pc := to_camera extrinsic p in
  if fgt (depth pc) fzero then
    let u := project_u intrinsic pc in
    let v := project_v intrinsic pc in
    if in_bounds_px (shape color).2 (shape color).1 u v then
      match max_column (scores_at (resized model color) u v) with
      | Some (s, k) =>
          if fgt s threshold then class_of (boxes_cls (model color)) k
          else -1
      | None => -1
      end
    else -1
  else -1.
End Fusion.
End Segmentation.

(** ** pipeline_controller.py *)

Module Controller.

(** [gui.MouseEvent.Type], [gui.Widget.EventCallbackResult] and the part of
    a [gui.MouseEvent] the controller reads. *)
Inductive MouseEventType := MOVE | BUTTON_DOWN | DRAG | BUTTON_UP | WHEEL.
Inductive EventCallbackResult := IGNORED | HANDLED | CONSUMED.

Record MouseEvent := {
  ev_type : MouseEventType;
  ev_x : Z;
  ev_y : Z;
  ev_ctrl : bool;                  (* is_modifier_down(gui.KeyModifier.CTRL) *)
  ev_left : bool                   (* is_button_down(gui.MouseButton.LEFT) *)
}.

(** [pcdview.frame]. *)
Record Frame := { frame_x : Z; frame_y : Z; frame_width : Z; frame_height : Z }.

(** *** threading.Condition

    The state of [cv_capture] as the calling thread sees it: how often it
    holds the underlying reentrant lock, the threads parked in [wait] (oldest
    first), the threads it has released from [wait], and the calls made. *)
Inductive CvCall := Acquire | Notify (n : nat) | NotifyAll | Release.

Record Condition := {
  held : nat;
  waiters : list nat;
  woken : list nat;
  calls : list CvCall
}.

(** [__enter__]: returns once the caller owns the lock. *)
Definition cv_acquire (c : Condition) : Condition :=
  {| held := S (held c); waiters := waiters c; woken := woken c;
     calls := calls c ++ [Acquire] |}.

(** [__exit__]. *)
Definition cv_release (c : Condition) : result Condition :=
  match held c with
  | O => Raise RuntimeError
  | S h => Ok {| held := h; waiters := waiters c; woken := woken c;
                 calls := calls c ++ [Release] |}
  end.

(** [notify(n)] wakes the [n] oldest waiters; it raises when the caller does
    not own the lock. *)
Definition cv_notify (n : nat) (c : Condition) : result Condition :=
  match held c with
  | O => Raise RuntimeError
  | S _ => Ok {| held := held c; waiters := drop n (waiters c);
                 woken := woken c ++ take n (waiters c);
                 calls := calls c ++ [Notify n] |}
  end.

(** [notify_all()] is [notify(len(waiters))]. *)
Definition cv_notify_all (c : Condition) : result Condition :=
  match held c with
  | O => Raise RuntimeError
  | S _ => Ok {| held := held c; waiters := drop (length (waiters c)) (waiters c);
                 woken := woken c ++ take (length (waiters c)) (waiters c);
                 calls := calls c ++ [NotifyAll] |}
  end.

Section Controller.
Context `{Float F}.
(** The collaborators the controller only calls: the scene camera with its
    [unproject], the ["{:.3f}"] formatting of a float, the frame payload
    with the view's [update], and the state behind the model's
    [model_intialization]. *)
Context {Camera FrameElements Engine : Type}.
Variable unproject : Camera → Z → Z → F → Z → Z → F * F * F.
Variable format_3f : F → string.

(** [np.asarray(depth_image)]: a two-dimensional array. *)
Record ndarray := { shape0 : nat; shape1 : nat; item : Z → Z → F }.

(** [a[y, x]]: a negative index counts from the end. *)
Definition getitem (a : ndarray) (y x : Z) : result F :=
  let y' := if y <? 0 then y + Z.of_nat (shape0 a) else y in
  let x' := if x <? 0 then x + Z.of_nat (shape1 a) else x in
  if (0 <=? y') && (y' <? Z.of_nat (shape0 a)) &&
     (0 <=? x') && (x' <? Z.of_nat (shape1 a))
  then Ok (item a y' x') else Raise IndexError.

(** The mouse callback installed on the 3D widget; the controller only
    ever installs its own [_on_mouse_widget3d]. *)
Inductive Handler := OnMouseWidget3d.

(** A callback handed to [post_to_main_thread]. *)
Inductive Callback :=
| ViewUpdate (frame_elements : FrameElements)   (* lambda: view.update(frame_elements) *)
| UpdateLabel (text : string).                  (* update_label, closed over text *)

(** Modelled from the spec: the attributes of [PipelineView] (module
    [pipeline_view], not part of the sources) that the controller reads or
    writes. [toggle_record] is the record control's [is_on], [None] when
    the control does not exist; [layouts] counts
    [window.set_needs_layout()]. *)
Record View := {
  capturing : bool;
  edit_mode : bool;
  toggle_record : option bool;
  on_mouse : option Handler;
  frame : Frame;
  camera : Camera;
  mouse_coord : string;
  layouts : nat;
  view_flag_normals : bool;
  flag_gui_init : bool;
  shown : option FrameElements
}.

(** Modelled from the spec: the attributes of [PipelineModel] (module
    [pipeline_model], not part of the sources): the capture flags and the
    capture condition variable. *)
Record Model := {
  flag_capture : bool;
  flag_record : bool;
  flag_exit : bool;
  flag_save_pcd : bool;
  flag_save_rgbd : bool;
  flag_normals : bool;
  flag_model_init : bool;
  cv_capture : Condition;
  engine : Engine
}.

Variable view_update : FrameElements → View → View.
Variable model_intialization : Model → Model.

(** The controller object, its two collaborators, the callbacks posted to
    the main thread and not yet run, and the depth renderings requested and
    not yet delivered (each a [depth_callback] closed over [x] and [y]). *)
Record World := {
  drawing_rectangle : bool;
  initial_point : option (Z * Z);
  rectangle_geometry : option unit;
  pipeline_view : View;
  pipeline_model : Model;
  main_thread_queue : list Callback;
  depth_requests : list (Z * Z)
}.

(** *** Attribute assignment *)

Definition with_view (f : View → View) (w : World) : World :=
  {| drawing_rectangle := drawing_rectangle w; initial_point := initial_point w;
     rectangle_geometry := rectangle_geometry w;
     pipeline_view := f (pipeline_view w); pipeline_model := pipeline_model w;
     main_thread_queue := main_thread_queue w;
     depth_requests := depth_requests w |}.

Definition with_model (f : Model → Model) (w : World) : World :=
  {| drawing_rectangle := drawing_rectangle w; initial_point := initial_point w;
     rectangle_geometry := rectangle_geometry w;
     pipeline_view := pipeline_view w; pipeline_model := f (pipeline_model w);
     main_thread_queue := main_thread_queue w;
     depth_requests := depth_requests w |}.

Definition set_drawing_rectangle (b : bool) (w : World) : World :=
  {| drawing_rectangle := b; initial_point := initial_point w;
     rectangle_geometry := rectangle_geometry w;
     pipeline_view := pipeline_view w; pipeline_model := pipeline_model w;
     main_thread_queue := main_thread_queue w;
     depth_requests := depth_requests w |}.

Definition set_main_thread_queue (q : list Callback) (w : World) : World :=
  {| drawing_rectangle := drawing_rectangle w; initial_point := initial_point w;
     rectangle_geometry := rectangle_geometry w;
     pipeline_view := pipeline_view w; pipeline_model := pipeline_model w;
     main_thread_queue := q; depth_requests := depth_requests w |}.

Definition set_depth_requests (q : list (Z * Z)) (w : World) : World :=
  {| drawing_rectangle := drawing_rectangle w; initial_point := initial_point w;
     rectangle_geometry := rectangle_geometry w;
     pipeline_view := pipeline_view w; pipeline_model := pipeline_model w;
     main_thread_queue := main_thread_queue w; depth_requests := q |}.

Definition set_capturing (b : bool) (v : View) : View :=
  {| capturing := b; edit_mode := edit_mode v; toggle_record := toggle_record v;
     on_mouse := on_mouse v; frame := frame v; camera := camera v;
     mouse_coord := mouse_coord v; layouts := layouts v;
     view_flag_normals := view_flag_normals v; flag_gui_init := flag_gui_init v;
     shown := shown v |}.

Definition set_toggle_record (r : option bool) (v : View) : View :=
  {| capturing := capturing v; edit_mode := edit_mode v; toggle_record := r;
     on_mouse := on_mouse v; frame := frame v; camera := camera v;
     mouse_coord := mouse_coord v; layouts := layouts v;
     view_flag_normals := view_flag_normals v; flag_gui_init := flag_gui_init v;
     shown := shown v |}.

Definition set_on_mouse (h : option Handler) (v : View) : View :=
  {| capturing := capturing v; edit_mode := edit_mode v;
     toggle_record := toggle_record v;
     on_mouse := h; frame := frame v; camera := camera v;
     mouse_coord := mouse_coord v; layouts := layouts v;
     view_flag_normals := view_flag_normals v; flag_gui_init := flag_gui_init v;
     shown := shown v |}.

Definition set_mouse_coord (text : string) (v : View) : View :=
  {| capturing := capturing v; edit_mode := edit_mode v;
     toggle_record := toggle_record v;
     on_mouse := on_mouse v; frame := frame v; camera := camera v;
     mouse_coord := text; layouts := layouts v;
     view_flag_normals := view_flag_normals v; flag_gui_init := flag_gui_init v;
     shown := shown v |}.

Definition set_needs_layout (v : View) : View :=
  {| capturing := capturing v; edit_mode := edit_mode v;
     toggle_record := toggle_record v;
     on_mouse := on_mouse v; frame := frame v; camera := camera v;
     mouse_coord := mouse_coord v; layouts := S (layouts v);
     view_flag_normals := view_flag_normals v; flag_gui_init := flag_gui_init v;
     shown := shown v |}.

Definition set_view_normals (b : bool) (v : View) : View :=
  {| capturing := capturing v; edit_mode := edit_mode v;
     toggle_record := toggle_record v;
     on_mouse := on_mouse v; frame := frame v; camera := camera v;
     mouse_coord := mouse_coord v; layouts := layouts v;
     view_flag_normals := b; flag_gui_init := flag_gui_init v;
     shown := shown v |}.

Definition set_flag_gui_init (b : bool) (v : View) : View :=
  {| capturing := capturing v; edit_mode := edit_mode v;
     toggle_record := toggle_record v;
     on_mouse := on_mouse v; frame := frame v; camera := camera v;
     mouse_coord := mouse_coord v; layouts := layouts v;
     view_flag_normals := view_flag_normals v; flag_gui_init := b;
     shown := shown v |}.

(** The seven boolean flags of the model, by name. *)
Inductive Flag :=
| FlagCapture | FlagRecord | FlagExit | FlagSavePcd | FlagSaveRgbd
| FlagNormals | FlagModelInit.

Definition set_flag (fl : Flag) (b : bool) (m : Model) : Model :=
  {| flag_capture := if fl is FlagCapture then b else flag_capture m;
     flag_record := if fl is FlagRecord then b else flag_record m;
     flag_exit := if fl is FlagExit then b else flag_exit m;
     flag_save_pcd := if fl is FlagSavePcd then b else flag_save_pcd m;
     flag_save_rgbd := if fl is FlagSaveRgbd then b else flag_save_rgbd m;
     flag_normals := if fl is FlagNormals then b else flag_normals m;
     flag_model_init := if fl is FlagModelInit then b else flag_model_init m;
     cv_capture := cv_capture m; engine := engine m |}.

Definition set_cv_capture (c : Condition) (m : Model) : Model :=
  {| flag_capture := flag_capture m; flag_record := flag_record m;
     flag_exit := flag_exit m; flag_save_pcd := flag_save_pcd m;
     flag_save_rgbd := flag_save_rgbd m; flag_normals := flag_normals m;
     flag_model_init := flag_model_init m;
     cv_capture := c; engine := engine m |}.

(** *** Methods as state transformers that may raise *)

Definition M (A : Type) : Type := World → result (A * World).

#[global] Instance M_ret : MRet M := λ A a w, Ok (a, w).
#[global] Instance M_bind : MBind M := λ A B f m w,
  match m w with Ok (a, w') => f a w' | Raise e => Raise e end.

Definition get : M World := λ w, Ok (w, w).
Definition modify (f : World → World) : M unit := λ w, Ok (tt, f w).
Definition modify_view (f : View → View) : M unit := modify (with_view f).
Definition modify_model (f : Model → Model) : M unit := modify (with_model f).

(** An operation on [pipeline_model.cv_capture]. *)
Definition on_cv (op : Condition → result Condition) : M unit := λ w,
  match op (cv_capture (pipeline_model w)) with
  | Ok c => Ok (tt, with_model (set_cv_capture c) w)
  | Raise e => Raise e
  end.

(** [with self.pipeline_model.cv_capture: body]. *)
Definition with_cv_capture (body : M unit) : M unit :=
  on_cv (λ c, Ok (cv_acquire c));; body;; on_cv cv_release.

(** [gui.Application.instance.post_to_main_thread(window, callback)]. *)
Definition post_to_main_thread (c : Callback) : M unit :=
  modify (λ w, set_main_thread_queue (main_thread_queue w ++ [c]) w).

(** [scene.scene.render_to_depth_image(depth_callback)], the callback
    closed over [x] and [y]. *)
Definition render_to_depth_image (x y : Z) : M unit :=
  modify (λ w, set_depth_requests (depth_requests w ++ [(x, y)]) w).

Definition update_view (frame_elements : FrameElements) : M unit :=
  post_to_main_thread (ViewUpdate frame_elements).

Definition on_toggle_record (is_enabled : bool) : M unit :=
  modify_model (set_flag FlagRecord is_enabled).

Definition on_toggle_capture (is_on : bool) : M unit :=
  modify_view (set_capturing is_on);;
  w ← get;
  (if negb (capturing (pipeline_view w))
   then modify_view (set_on_mouse (Some OnMouseWidget3d))
   else modify_view (set_on_mouse None));;
  modify_model (set_flag FlagCapture is_on);;
  if negb is_on then
    on_toggle_record false;;
    w ← get;
    if toggle_record (pipeline_view w) is Some _
    then modify_view (set_toggle_record (Some false))
    else mret tt
  else
    with_cv_capture (on_cv (cv_notify 1)).

Definition on_toggle_normals (is_enabled : bool) : M unit :=
  modify_model (set_flag FlagNormals is_enabled);;
  modify_view (set_view_normals is_enabled);;
  modify_view (set_flag_gui_init false).

Definition on_window_close : M bool :=
  modify_model (set_flag FlagExit true);;
  with_cv_capture (on_cv cv_notify_all);;
  mret true.

Definition on_save_pcd : M unit := modify_model (set_flag FlagSavePcd true).

Definition on_toggle_model_init (is_enabled : bool) : M unit :=
  modify_model model_intialization;;
  modify_model (set_flag FlagModelInit is_enabled).

Definition on_save_rgbd : M unit := modify_model (set_flag FlagSaveRgbd true).

(** The text of the label for a picked world coordinate. *)
Definition coord_text (world : F * F * F) : string :=
  ("Mouse Coord: (" ++ format_3f world.1.1 ++ ", " ++ format_3f world.1.2
     ++ ", " ++ format_3f world.2 ++ ")")%string.

Definition nothing_text : string := "Mouse Coord: Clicked on nothing".

(** [update_label], run on the main thread. *)
Definition update_label (text : string) : M unit :=
  modify_view (set_mouse_coord text);;
  modify_view set_needs_layout.

(** [depth_callback], closed over the click's [x] and [y]; the render
    subsystem runs it with the depth image. *)
Definition depth_callback (x y : Z) (depth_image : ndarray) : M unit :=
  let depth_array := depth_image in
  depth ← (if (y <? Z.of_nat (shape0 depth_array)) &&
              (x <? Z.of_nat (shape1 depth_array))
           then (λ w, match getitem depth_array y x with
                      | Ok d => Ok (d, w) | Raise e => Raise e end) : M F
           else mret fone);
  text ← (if feq depth fone then mret nothing_text
          else
            w ← get;
            let v := pipeline_view w in
            let world := unproject (camera v) x y depth
                           (frame_width (frame v)) (frame_height (frame v)) in
            mret (coord_text world));
  post_to_main_thread (UpdateLabel text).

Definition _on_mouse_widget3d (event : MouseEvent) : M EventCallbackResult :=
  w ← get;
  if capturing (pipeline_view w) then mret IGNORED
  else if negb (edit_mode (pipeline_view w)) then mret IGNORED
  else if (if ev_type event is BUTTON_DOWN then true else false)
          && ev_ctrl event && ev_left event then
    let fr := frame (pipeline_view w) in
    let x := ev_x event - frame_x fr in
    let y := ev_y event - frame_y fr in
    (if (0 <=? x) && (x <? frame_width fr) && (0 <=? y) && (y <? frame_height fr)
     then render_to_depth_image x y
     else mret tt);;
    mret HANDLED
  else if (if ev_type event is DRAG then true else false)
          && drawing_rectangle w then
    mret HANDLED
  else if (if ev_type event is BUTTON_UP then true else false)
          && drawing_rectangle w then
    modify (set_drawing_rectangle false);;
    mret HANDLED
  else mret IGNORED.

(** A callback taken from the main-thread queue and run there. *)
Definition run_callback (c : Callback) : M unit :=
  match c with
  | ViewUpdate frame_elements => modify_view (view_update frame_elements)
  | UpdateLabel text => update_label text
  end.

(** *** The life of the controller *)

(** [__init__], given the model and the view that the constructors of
    [PipelineModel] and [PipelineView] return: the state in which the
    producer thread is started and the event loop is entered. *)
Definition __init__ (model : Model) (view : View) : World :=
  {| drawing_rectangle := false;
     initial_point := None;
     rectangle_geometry := None;
     pipeline_view := view;
     pipeline_model := model;
     main_thread_queue := [];
     depth_requests := [] |}.

(** The methods of the controller, as the toolkit and the producer call
    them. *)
Inductive Call :=
| UpdateView (frame_elements : FrameElements)
| OnToggleCapture (is_on : bool)
| OnToggleRecord (is_enabled : bool)
| OnToggleNormals (is_enabled : bool)
| OnWindowClose
| OnSavePcd
| OnToggleModelInit (is_enabled : bool)
| OnSaveRgbd
| OnMouse (event : MouseEvent)
| DepthDone (x y : Z) (depth_image : ndarray)
| FromQueue (c : Callback).

Definition run (c : Call) : M unit :=
  match c with
  | UpdateView frame_elements => update_view frame_elements
  | OnToggleCapture is_on => on_toggle_capture is_on
  | OnToggleRecord is_enabled => on_toggle_record is_enabled
  | OnToggleNormals is_enabled => on_toggle_normals is_enabled
  | OnWindowClose => on_window_close;; mret tt
  | OnSavePcd => on_save_pcd
  | OnToggleModelInit is_enabled => on_toggle_model_init is_enabled
  | OnSaveRgbd => on_save_rgbd
  | OnMouse event => _on_mouse_widget3d event;; mret tt
  | DepthDone x y depth_image => depth_callback x y depth_image
  | FromQueue c => run_callback c
  end.

(** One step: a method of the controller runs to completion, or code
    outside the controller (the producer thread, the toolkit) changes the
    model, the view or the queues. *)
Inductive step : World → World → Prop :=
| step_call c w w' : run c w = Ok (tt, w') → step w w'
| step_outside w w' :
    drawing_rectangle w' = drawing_rectangle w →
    initial_point w' = initial_point w →
    rectangle_geometry w' = rectangle_geometry w →
    step w w'.

Inductive reachable : World → Prop :=
| reachable_init model view : reachable (__init__ model view)
| reachable_step w w' : reachable w → step w w' → reachable w'.
End Controller.
End Controller.

(** ** Exact arithmetic

    The rationals as an instance of the scalar interface, with scenes to run
    the definitions on. *)

Module Exact.
Import Segmentation Controller.

(** Round to the nearest integer, a half to the even neighbour. *)
Definition round_half_even (q : Q) : Z :=
  let f := Qfloor q in
  match (q - inject_Z f ?= 1 # 2)%Q with
  | Lt => f
  | Gt => f + 1
  | Eq => if Z.even f then f else f + 1
  end.

(** Drop the fractional part. *)
Definition truncate (q : Q) : Z := Z.quot (Qnum q) (Zpos (Qden q)).

#[global] Instance Q_float : Float Q := {|
  fzero := 0%Q;
  fhalf := (1 # 2)%Q;
  fone := 1%Q;
  fadd := Qplus;
  fmul := Qmult;
  fdiv := Qdiv;
  fgt a b := negb (Qle_bool a b);
  fle := Qle_bool;
  feq := Qeq_bool;
  isnan _ := false;
  round_long := round_half_even;
  to_int := truncate
|}.

(** An image is known by its height and width; a raw mask is a score field
    already at the size of the image. *)
Definition image : Type := nat * nat.
Definition shape_of (color : image) : nat * nat := color.
Definition keep_size (m : Z → Z → Q) (H W : nat) : Z → Z → Q := m.

Definition vga : image := (480%nat, 640%nat).

(** fx = fy = 500, cx = 320, cy = 240. *)
Definition intrinsic_500 : @matrix Q := λ i j,
  match i, j with
  | 0%nat, 0%nat | 1%nat, 1%nat => 500%Q
  | 0%nat, 2%nat => 320%Q
  | 1%nat, 2%nat => 240%Q
  | 2%nat, 2%nat => 1%Q
  | _, _ => 0%Q
  end.

Definition identity : @matrix Q := λ i j, if decide (i = j) then 1%Q else 0%Q.

(** A detector that reports the given masks and classes for every image. *)
Definition detector (masks : list (Z → Z → Q)) (cls : list Q)
  : image → @Results Q (Z → Z → Q) :=
  λ _, {| masks_data := masks; boxes_cls := cls |}.

Definition uniform (score : Q) : Z → Z → Q := λ _ _, score.

Definition fuse (masks : list (Z → Z → Q)) (cls : list Q)
    (pcd : list (@point Q)) : result (list Z) :=
  segment_pcd_from_2d shape_of keep_size (detector masks cls)
    intrinsic_500 identity pcd vga.

(** A view in edit mode, not capturing, with a 640 x 480 widget at (100, 50). *)
Definition idle_view : @View unit unit := {|
  capturing := false; edit_mode := true; toggle_record := Some true;
  on_mouse := Some OnMouseWidget3d;
  frame := {| frame_x := 100; frame_y := 50; frame_width := 640; frame_height := 480 |};
  camera := tt; mouse_coord := EmptyString; layouts := 0;
  view_flag_normals := false; flag_gui_init := false; shown := None
|}.

Definition parked_model : @Model unit := {|
  flag_capture := false; flag_record := true; flag_exit := false;
  flag_save_pcd := false; flag_save_rgbd := false; flag_normals := false;
  flag_model_init := false;
  cv_capture := {| held := 0; waiters := [7%nat; 8%nat]; woken := []; calls := [] |};
  engine := tt
|}.

Definition idle_world : @World unit unit unit := {|
  drawing_rectangle := false; initial_point := None; rectangle_geometry := None;
  pipeline_view := idle_view; pipeline_model := parked_model;
  main_thread_queue := []; depth_requests := []
|}.

(** A camera that returns the pixel and the depth as they are. *)
Definition flat_unproject (_ : unit) (x y : Z) (depth : Q) (_ _ : Z) : Q * Q * Q :=
  (inject_Z x, inject_Z y, depth).

(** The value in thousandths, as an integer. *)
Definition thousandths (q : Q) : string := pretty (Qfloor (q * 1000)).

Definition ctrl_click (x y : Z) : MouseEvent :=
  {| ev_type := BUTTON_DOWN; ev_x := x; ev_y := y; ev_ctrl := true; ev_left := true |}.

Definition drag (x y : Z) : MouseEvent :=
  {| ev_type := DRAG; ev_x := x; ev_y := y; ev_ctrl := false; ev_left := true |}.

Definition flat_depth (d : Q) : @ndarray Q :=
  {| shape0 := 480; shape1 := 640; item := λ _ _, d |}.
End Exact.

(** ** Label fusion: which points ask for a class id *)

Module Labelling.
Import Tensor Segmentation.

Section Labelling.
Context `{Float F} {Image RawMask : Type}.
Variable shape : Image → nat * nat.
Variable interpolate : RawMask → nat → nat → Z → Z → F.

(** The mask index that the reduction returns at the pixel of a point, the
    entry of [mask_ids] for it. *)
Definition winner (model : Image → Results) (intrinsic extrinsic : matrix)
    (color : Image) (p : point) : nat :=
  match max_column (pixel_scores shape interpolate model intrinsic extrinsic
                      color p) with
  | Some (_, k) => k
  | None => 0%nat
  end.

(** The point passes the depth, the bounds and the threshold test: its index
    is in [valid_indices]. *)
Definition labelled (model : Image → Results) (intrinsic extrinsic : matrix)
    (color : Image) (p : point) : bool :=
  survives shape intrinsic extrinsic color p
  && match max_column (pixel_scores shape interpolate model intrinsic extrinsic
                         color p) with
     | Some (s, _) => fgt s threshold
     | None => false
     end.

(** The entries of [mask_ids[valid_mask]]: the class lookups the call
    makes, in the order of the points. *)
Definition lookups (model : Image → Results) (intrinsic extrinsic : matrix)
    (color : Image) (pcd : list point) : list nat :=
  winner model intrinsic extrinsic color
    <$> List.filter (labelled model intrinsic extrinsic color) pcd.
End Labelling.
End Labelling.

(** ** The controller: what each method may touch *)

Module Protocol.
Import Controller.

Section Protocol.
Context `{Float F} {Camera FrameElements Engine : Type}.
Variable unproject : Camera → Z → Z → F → Z → Z → F * F * F.
Variable format_3f : F → string.
Variable view_update :
  FrameElements → @View Camera FrameElements → @View Camera FrameElements.
Variable model_intialization : @Model Engine → @Model Engine.

(** The value of a flag of the model. *)
Definition get_flag (fl : Flag) (m : @Model Engine) : bool :=
  match fl with
  | FlagCapture => flag_capture m
  | FlagRecord => flag_record m
  | FlagExit => flag_exit m
  | FlagSavePcd => flag_save_pcd m
  | FlagSaveRgbd => flag_save_rgbd m
  | FlagNormals => flag_normals m
  | FlagModelInit => flag_model_init m
  end.

(** The assignments to flags of the model in the body of a method, those
    of the methods it calls included: the flag and the value assigned. *)
Definition assigns (c : @Call F FrameElements) (fl : Flag) : option bool :=
  match c, fl with
  | OnToggleCapture is_on, FlagCapture => Some is_on
  | OnToggleCapture false, FlagRecord => Some false
  | OnToggleRecord is_enabled, FlagRecord => Some is_enabled
  | OnToggleNormals is_enabled, FlagNormals => Some is_enabled
  | OnWindowClose, FlagExit => Some true
  | OnSavePcd, FlagSavePcd => Some true
  | OnSaveRgbd, FlagSaveRgbd => Some true
  | OnToggleModelInit is_enabled, FlagModelInit => Some is_enabled
  | _, _ => None
  end.

(** The model as the methods of the model that a controller method calls
    leave it: [on_toggle_model_init] calls [model_intialization], no other
    method calls into the model. *)
Definition model_call (c : @Call F FrameElements) (m : @Model Engine)
  : @Model Engine :=
  match c with
  | OnToggleModelInit _ => model_intialization m
  | _ => m
  end.

(** The view and the model agree on capturing, and the pointer handler is
    installed exactly while capture is off. *)
Definition wired (w : @World Camera FrameElements Engine) : Prop :=
  capturing (pipeline_view w) = flag_capture (pipeline_model w)
  ∧ on_mouse (pipeline_view w)
    = if capturing (pipeline_view w) then None else Some OnMouseWidget3d.

(** A sequence of calls, each run to completion before the next. *)
Fixpoint run_all (cs : list (@Call F FrameElements))
  : @M Camera FrameElements Engine unit :=
  match cs with
  | [] => mret tt
  | c :: cs' =>
      run unproject format_3f view_update model_intialization c;;
      run_all cs'
  end.
End Protocol.
End Protocol.

(** ** vtk_pipeline/app_ui.py: DataTreeWidget *)

Module DataTree.

(** A [QTreeWidgetItem] as the widget sees it: [text(0)], [parent()] and the
    children [child(0)], [child(1)], ... Items are known by their identity,
    the number that [id] returns. *)
Record QTreeWidgetItem := {
  text_0 : string;
  parent : option nat;
  child : list nat
}.

(** [DataTreeWidget.SelectedItem]. *)
Record SelectedItem := {
  item : option nat;
  level : option Z;
  index_in_level : option Z;
  parent_text : option string;
  root_text : option string
}.

(** [SelectedItem.__init__] with its defaults. *)
Definition SelectedItem__init__ : SelectedItem :=
  {| item := None; level := None; index_in_level := None;
     parent_text := None; root_text := None |}.

(** [SelectedItem.__eq__]: only the item is compared. *)
Definition SelectedItem__eq__ (self : SelectedItem) (value : option nat) : bool :=
  bool_decide (item self = value).

Definition set_attr (item : nat) (level index_in_level : Z)
    (parent_text root_text : string) (self : SelectedItem) : SelectedItem :=
  {| item := Some item; level := Some level;
     index_in_level := Some index_in_level;
     parent_text := Some parent_text; root_text := Some root_text |}.

Definition reset (self : SelectedItem) : SelectedItem :=
  {| item := None; level := None; index_in_level := None;
     parent_text := None; root_text := None |}.

(** The arguments of one call of the selection callback. *)
Definition Selection : Type := nat * Z * Z * string * string.

(** The widget: the item objects that exist, the top-level items in order,
    the two dictionaries keyed by [id(item)], the callback (known by a
    number) and the selected item; [callback_calls] records the calls made
    to callbacks. *)
Record DataTreeWidget := {
  items : gmap nat QTreeWidgetItem;
  top_level_items : list nat;
  item_to_level : gmap nat Z;
  item_to_root_text : gmap nat string;
  _on_selection_callback : option nat;
  selected_item : SelectedItem;
  callback_calls : list (nat * Selection)
}.

(** [DataTreeWidget.__init__]. *)
Definition DataTreeWidget__init__ : DataTreeWidget :=
  {| items := ∅; top_level_items := []; item_to_level := ∅;
     item_to_root_text := ∅; _on_selection_callback := None;
     selected_item := SelectedItem__init__; callback_calls := [] |}.

(** [parent_item.addChild]: what the constructor with a parent does to the
    parent. *)
Definition append_child (item : nat) (p : QTreeWidgetItem) : QTreeWidgetItem :=
  {| text_0 := text_0 p; parent := parent p; child := child p ++ [item] |}.

(** Whether a string counts as true. *)
Definition truthy (s : string) : bool :=
  if s is EmptyString then false else true.

Section Methods.
(** The identity of a newly created object, given the identities in use. *)
Variable new_id : gset nat → nat.

Definition add_item (parent_item : option nat) (text : string) (level : Z)
    (root_text : option string) (self : DataTreeWidget)
  : nat * DataTreeWidget :=
  let item := new_id (dom (items self)) in
  let created := {| text_0 := text; parent := parent_item; child := [] |} in
  let items' :=
    match parent_item with
    | Some p => alter (append_child item) p (<[item := created]> (items self))
    | None => <[item := created]> (items self)
    end in
  let top_level_items' :=
    if parent_item is None then top_level_items self ++ [item]
    else top_level_items self in
  let item_id := item in
  (item,
   {| items := items';
      top_level_items := top_level_items';
      item_to_level := <[item_id := level]> (item_to_level self);
      item_to_root_text :=
        <[item_id := match root_text with
                     | Some r => if truthy r then r else text
                     | None => text
                     end]> (item_to_root_text self);
      _on_selection_callback := _on_selection_callback self;
      selected_item := selected_item self;
      callback_calls := callback_calls self |}).
End Methods.

Definition set_on_selection_changed (callback : option nat)
    (self : DataTreeWidget) : DataTreeWidget :=
  {| items := items self; top_level_items := top_level_items self;
     item_to_level := item_to_level self;
     item_to_root_text := item_to_root_text self;
     _on_selection_callback := callback;
     selected_item := selected_item self;
     callback_calls := callback_calls self |}.

(** [siblings.index(item) if item in siblings else -1]. *)
Definition index_or_minus_one (item : nat) (siblings : list nat) : Z :=
  match list_find (λ sibling, sibling = item) siblings with
  | Some (i, _) => Z.of_nat i
  | None => -1
  end.

Definition _on_item_clicked (item : nat) (column : Z) (self : DataTreeWidget)
  : DataTreeWidget :=
  let item_id := item in
  let parent_item := items self !! item ≫= parent in
  let level := default (-1) (item_to_level self !! item_id) in
  let parent_text :=
    match parent_item with
    | Some p => default EmptyString (text_0 <$> items self !! p)
    | None => "None"%string
    end in
  let root_text := default "None"%string (item_to_root_text self !! item_id) in
  let siblings :=
    match parent_item with
    | Some p => default [] (child <$> items self !! p)
    | None => top_level_items self
    end in
  let index_in_level := index_or_minus_one item siblings in
  {| items := items self; top_level_items := top_level_items self;
     item_to_level := item_to_level self;
     item_to_root_text := item_to_root_text self;
     _on_selection_callback := _on_selection_callback self;
     selected_item :=
       set_attr item level index_in_level parent_text root_text
         (selected_item self);
     callback_calls :=
       match _on_selection_callback self with
       | Some callback =>
           callback_calls self
           ++ [(callback, (item, level, index_in_level, parent_text, root_text))]
       | None => callback_calls self
       end |}.

(** The widget is sound when every item it mentions exists: the top-level
    items, the parents and the children, and the keys of both
    dictionaries. *)
Definition sound (self : DataTreeWidget) : Prop :=
  (∀ i, i ∈ top_level_items self → is_Some (items self !! i))
  ∧ (∀ i it c, items self !! i = Some it → c ∈ child it →
               is_Some (items self !! c))
  ∧ (∀ i it p, items self !! i = Some it → parent it = Some p →
               is_Some (items self !! p))
  ∧ (∀ i, is_Some (item_to_level self !! i) → is_Some (items self !! i))
  ∧ (∀ i, is_Some (item_to_root_text self !! i) → is_Some (items self !! i)).

(** The siblings that a click on an item walks through. *)
Definition siblings_of (parent_item : option nat) (self : DataTreeWidget)
  : list nat :=
  match parent_item with
  | Some p => default [] (child <$> items self !! p)
  | None => top_level_items self
  end.

Section Built.
Variable new_id : gset nat → nat.

(** The widgets that the methods of the class produce from a new one; the
    parent handed to [add_item] is an item that exists. *)
Inductive built : DataTreeWidget → Prop :=
| built_init : built DataTreeWidget__init__
| built_add parent_item text level root_text self :
    built self →
    (∀ p, parent_item = Some p → is_Some (items self !! p)) →
    built (add_item new_id parent_item text level root_text self).2
| built_callback callback self :
    built self → built (set_on_selection_changed callback self)
| built_click item column self :
    built self → built (_on_item_clicked item column self).
End Built.
End DataTree.

Module TensorFacts.
Import Tensor.

Section Lists.
Context {A B : Type}.
Implicit Types (l : list A) (g : A → bool) (f : A → B).

Lemma select_fmap f g l :
  select (f <$> l) (g <$> l) = f <$> List.filter g l.
Proof.
  induction l as [|x l IH]; csimpl; [done|].
  destruct (g x); csimpl; by rewrite IH.
Qed.

Lemma bool_index_fmap f g l :
  bool_index (f <$> l) (g <$> l) = Ok (f <$> List.filter g l).
Proof.
  unfold bool_index. rewrite !length_fmap, decide_True by done.
  by rewrite select_fmap.
Qed.

Lemma bool_index_filter g l : bool_index l (g <$> l) = Ok (List.filter g l).
Proof.
  unfold bool_index. rewrite length_fmap, decide_True by done. f_equal.
  induction l as [|x l IH]; csimpl; [done|]. destruct (g x); by rewrite IH.
Qed.

Lemma filter_twice g g' l :
  List.filter g' (List.filter g l) = List.filter (λ x, g x && g' x) l.
Proof.
  induction l as [|x l IH]; simpl; [done|].
  destruct (g x); simpl; [destruct (g' x)|]; by rewrite IH.
Qed.

Lemma zip_with_fmap_same {C D} (h : C → D → B) (a : A → C) (b : A → D) l :
  zip_with h (a <$> l) (b <$> l) = (λ x, h (a x) (b x)) <$> l.
Proof. induction l as [|x l IH]; csimpl; [done|]. by rewrite IH. Qed.

Lemma tag_cons o x l : tag o (x :: l) = (o, x) :: tag (S o) l.
Proof. done. Qed.

Lemma snd_tag o l : (tag o l).*2 = l.
Proof.
  revert o. induction l as [|x l IH]; intros o; [done|].
  rewrite tag_cons. csimpl. by rewrite IH.
Qed.

Lemma length_tag o l : length (tag o l) = length l.
Proof. by rewrite <- (snd_tag o l) at 2; rewrite length_fmap. Qed.

Lemma nonzero_from_tag o (g : nat * A → bool) l :
  nonzero_from o (g <$> tag o l) = (List.filter g (tag o l)).*1.
Proof.
  revert o. induction l as [|x l IH]; intros o; [done|].
  rewrite tag_cons. csimpl. destruct (g (o, x)); csimpl; by rewrite IH.
Qed.

Lemma gather_Ok_fmap {C} (src : list B) (h : A → nat) (f : B → C) (d : C) l :
  ∀ xs, gather src (h <$> l) = Ok xs →
    f <$> xs = (λ x, match src !! h x with Some c => f c | None => d end) <$> l.
Proof.
  induction l as [|x l IH]; csimpl; intros xs Hxs; [by injection Hxs as <-|].
  destruct (src !! h x) as [c|]; [|done].
  destruct (gather src (h <$> l)) as [ys|]; [|done].
  injection Hxs as <-. csimpl. by rewrite (IH ys).
Qed.

Lemma gather_Raise (src : list B) (ids : list nat) e :
  gather src ids = Raise e →
  e = IndexError ∧ ∃ i, i ∈ ids ∧ (length src ≤ i)%nat.
Proof.
  induction ids as [|i ids IH]; csimpl; [done|].
  destruct (src !! i) eqn:Hi.
  - destruct (gather src ids); [done|]. intros [= <-].
    destruct IH as (-> & j & Hj & Hle); [done|].
    split; [done|]. exists j. split; [by right|done].
  - intros [= <-]. split; [done|]. exists i. split; [by left|].
    by apply lookup_ge_None.
Qed.

Lemma put_each_tag (d : B) (g : nat * A → bool) (lab : nat * A → B) l :
  ∀ pre : list B,
    put_each (pre ++ replicate (length l) d)
             ((λ t, (t.1, lab t)) <$> List.filter g (tag (length pre) l))
    = Ok (pre ++ ((λ t, if g t then lab t else d) <$> tag (length pre) l)).
Proof.
  induction l as [|x l IH]; intros pre; [done|].
  rewrite tag_cons. csimpl.
  specialize (IH (pre ++ [if g (length pre, x) then lab (length pre, x) else d])).
  rewrite length_app, Nat.add_1_r, <- !(assoc_L (++)) in IH. simpl in IH.
  destruct (g (length pre, x)) eqn:Hg; csimpl; [|done].
  rewrite decide_True by (rewrite length_app; simpl; lia).
  rewrite <- IH. f_equal.
  rewrite insert_app_r_alt, Nat.sub_diag by done. done.
Qed.
End Lists.

Section MaxFacts.
Context `{Float F} {A : Type}.

Lemma max_rows_fmap {M} (sc : M → A → F) (ms : list M) (l : list A) :
  ∀ k (a : A → F * nat),
    max_rows k (a <$> l) ((λ m, sc m <$> l) <$> ms)
    = (λ x, max_scan k (a x) ((λ m, sc m x) <$> ms)) <$> l.
Proof.
  induction ms as [|m ms IH]; intros k a; csimpl; [done|].
  rewrite zip_with_fmap_same. by rewrite IH.
Qed.

Lemma max_step_index k cur x :
  (cur.2 < k)%nat → ((max_step k cur x).2 < S k)%nat.
Proof.
  intros. unfold max_step.
  destruct (isnan cur.1); [lia|]. destruct (negb _); simpl; lia.
Qed.

Lemma max_scan_index vals :
  ∀ k cur, (cur.2 < k)%nat → ((max_scan k cur vals).2 < k + length vals)%nat.
Proof.
  induction vals as [|x vals IH]; intros k cur Hk; simpl; [lia|].
  specialize (IH (S k) (max_step k cur x) (max_step_index _ _ _ Hk)). lia.
Qed.

Lemma max_column_index vals s k :
  max_column vals = Some (s, k) → (k < length vals)%nat.
Proof.
  destruct vals as [|x vals]; [done|]. intros [= Hs].
  pose proof (max_scan_index vals 1 (x, 0%nat)) as Hb.
  rewrite Hs in Hb. simpl in *. lia.
Qed.
End MaxFacts.

Section MaxOrder.
Context `{FloatLaws F}.
Implicit Types (vals : list F) (cur : F * nat).

Lemma fle_refl (a : F) : isnan a = false → fle a a = true.
Proof.
  intros Ha. pose proof (fle_total a a Ha Ha) as Ht.
  destruct (fle a a); [done|by apply Ht].
Qed.

Lemma max_step_seen vals n cur x :
  vals !! n = Some x → seen vals n cur → seen vals (S n) (max_step n cur x).
Proof.
  unfold seen. intros Hx (Hcur & Hlt & Hlow & Hmax). unfold max_step.
  destruct (isnan cur.1) eqn:Hnan.
  { split; [done|]. split; [lia|]. split; [done|]. by rewrite Hnan. }
  specialize (Hmax eq_refl).
  destruct (fle x cur.1) eqn:Hle; simpl.
  - split; [done|]. split; [lia|]. split; [done|].
    intros _ j y Hj Hy. destruct (decide (j = n)) as [->|]; [congruence|].
    apply Hmax with j; [lia|done].
  - split; [done|]. split; [lia|]. split.
    + intros j y Hj Hy. pose proof (Hmax j y Hj Hy) as Hyc. split.
      * by destruct (fle_nonnan _ _ Hyc).
      * destruct (fle x y) eqn:Hxy; [|done].
        by rewrite (fle_trans x y cur.1) in Hle.
    + intros Hxn j y Hj Hy. destruct (decide (j = n)) as [->|].
      * assert (y = x) as -> by congruence. by apply fle_refl.
      * apply fle_trans with cur.1; [apply Hmax with j; [lia|done]|].
        by apply fle_total.
Qed.

Lemma max_scan_seen rest :
  ∀ pre cur, seen (pre ++ rest) (length pre) cur →
    seen (pre ++ rest) (length pre + length rest)
         (max_scan (length pre) cur rest).
Proof.
  induction rest as [|x rest IH]; intros pre cur Hseen; simpl.
  { by rewrite Nat.add_0_r. }
  specialize (IH (pre ++ [x]) (max_step (length pre) cur x)).
  rewrite <- (assoc_L (++)), length_app, Nat.add_1_r in IH. simpl in IH.
  rewrite Nat.add_succ_r. apply IH. apply max_step_seen; [|done].
  by rewrite lookup_app_r, Nat.sub_diag.
Qed.

(** [torch.max] returns the score at the index it returns; every earlier
    score is an ordinary number that the returned score does not reach
    down to; and unless the returned score is NaN it bounds all scores. *)
Lemma max_column_spec vals s k :
  max_column vals = Some (s, k) →
  vals !! k = Some s ∧
  (∀ j x, (j < k)%nat → vals !! j = Some x →
          isnan x = false ∧ fle s x = false) ∧
  (isnan s = false → ∀ j x, vals !! j = Some x → fle x s = true).
Proof.
  destruct vals as [|x vals]; [done|]. intros [= Hs].
  pose proof (max_scan_seen vals [x] (x, 0%nat)) as Hseen.
  simpl in Hseen. rewrite Hs in Hseen.
  unfold seen in Hseen. destruct Hseen as (Hk & _ & Hlow & Hmax).
  { split; [done|]. split; [simpl; lia|]. split; [simpl; intros; lia|].
    simpl. intros Hx [|j] y Hj; [|lia]. intros [= <-]. by apply fle_refl. }
  split; [done|]. split; [done|].
  intros Hnan j y Hy. apply (Hmax Hnan j); [|done].
  apply lookup_lt_Some in Hy. simpl in Hy. lia.
Qed.

(** Among the masks whose score ties with the returned one, the returned
    index is the lowest. *)
Lemma max_column_lowest vals s k j x :
  max_column vals = Some (s, k) →
  vals !! j = Some x → same_score x s = true → (k ≤ j)%nat.
Proof.
  intros Hmax Hx Htie. apply max_column_spec in Hmax as (_ & Hlow & _).
  destruct (decide (k ≤ j)%nat) as [|Hjk]; [done|].
  destruct (Hlow j x) as [Hn Hle]; [lia|done|].
  unfold same_score in Htie. rewrite Hn, Hle in Htie.
  by rewrite andb_false_r in Htie.
Qed.

(** The reduction returns the maximum and the lowest position that holds
    it: a value that bounds every entry, at a position below which every
    entry is strictly smaller. *)
Lemma max_column_lowest_maximum vals s k :
  vals !! k = Some s →
  (∀ j x, vals !! j = Some x → fle x s = true) →
  (∀ j x, (j < k)%nat → vals !! j = Some x → fle s x = false) →
  max_column vals = Some (s, k).
Proof.
  intros Hk Hall Hbelow.
  destruct (max_column vals) as [[s' k']|] eqn:Hmax.
  - destruct (max_column_spec _ _ _ Hmax) as (Hk' & Hlow & Hbound).
    pose proof (Hall _ _ Hk') as Hs's.
    destruct (fle_nonnan _ _ Hs's) as [Hnan' _].
    pose proof (Hbound Hnan' _ _ Hk) as Hss'.
    destruct (lt_eq_lt_dec k k') as [[Hlt| ->]|Hlt].
    + destruct (Hlow _ _ Hlt Hk) as [_ Hno]. congruence.
    + congruence.
    + pose proof (Hbelow _ _ Hlt Hk'). congruence.
  - destruct vals; [done|]. discriminate Hmax.
Qed.
End MaxOrder.
End TensorFacts.

Module SegmentationFacts.
Import Tensor TensorFacts Segmentation.

Section Refinement.
Context `{Float F} {Image RawMask : Type}.
Variable shape : Image → nat * nat.
Variable interpolate : RawMask → nat → nat → Z → Z → F.
Local Abbreviation Results := (@Results F RawMask).
Local Abbreviation point := (@point F).
Local Abbreviation matrix := (@matrix F).
Implicit Types (model : Image → Results) (intrinsic extrinsic : matrix)
  (pcd : list point) (color : Image).

Lemma bind_Ok {A B} (a : A) (f : A → result B) : Ok a ≫= f = f a.
Proof. done. Qed.

Lemma segment_cases model intrinsic extrinsic pcd color :
  masks_data (model color) ≠ [] →
  segment_pcd_from_2d shape interpolate model intrinsic extrinsic pcd color
  = Ok (spec_label shape interpolate model intrinsic extrinsic color <$> pcd)
  ∨ (segment_pcd_from_2d shape interpolate model intrinsic extrinsic pcd color
     = Raise IndexError
     ∧ (length (boxes_cls (model color)) < length (masks_data (model color)))%nat).
Proof.
  intros HK. unfold segment_pcd_from_2d.
  destruct (shape color) as [Hh Ww] eqn:Hshape.
  cbv zeta.
  set (T := tag 0 (to_camera extrinsic <$> pcd)).
  assert (Hpc : to_camera extrinsic <$> pcd = T.*2) by (symmetry; apply snd_tag).
  assert (HN : length pcd = length (to_camera extrinsic <$> pcd))
    by (by rewrite length_fmap).
  rewrite HN, Hpc. clear HN.
  (* depth test *)
  rewrite <- !list_fmap_compose.
  rewrite bool_index_fmap, bind_Ok.
  set (g1 := (λ pc : point, fgt (depth pc) fzero) ∘ snd).
  unfold nonzero.
  pose proof (nonzero_from_tag 0 g1 (to_camera extrinsic <$> pcd)) as Hnz.
  fold T in Hnz. rewrite Hnz. clear Hnz.
  (* projection and bounds test *)
  rewrite <- !list_fmap_compose.
  rewrite zip_with_fmap_same.
  rewrite !bool_index_fmap, !bind_Ok.
  rewrite !filter_twice.
  set (pu := project_u intrinsic ∘ snd). set (pv := project_v intrinsic ∘ snd).
  set (g2 := λ x : nat * point, g1 x && in_bounds_px Ww Hh (pu x) (pv x)).
  set (T2 := List.filter g2 T).
  (* mask lookup and reduction *)
  set (sc := λ (m : RawMask) (t : nat * point), interpolate m Hh Ww (pv t) (pu t)).
  rewrite <- list_fmap_compose.
  rewrite (list_fmap_ext _ (λ m, sc m <$> T2) (masks_data (model color)))
    by (intros i m _; exact (zip_with_fmap_same (interpolate m Hh Ww) pv pu T2)).
  destruct (masks_data (model color)) as [|m0 ms] eqn:Hmasks; [done|].
  unfold max_dim0. csimpl.
  rewrite <- list_fmap_compose, max_rows_fmap.
  set (best := λ t, max_scan 1 (((λ x : F, (x, 0%nat)) ∘ sc m0) t) ((λ m, sc m t) <$> ms)).
  assert (Hbest : ∀ t, ((best t).2 < S (length ms))%nat).
  { intros t.
    pose proof (max_scan_index ((λ m, sc m t) <$> ms) 1 (sc m0 t, 0%nat)) as Hb.
    rewrite length_fmap in Hb. apply Hb. simpl. lia. }
  (* threshold test *)
  rewrite <- !list_fmap_compose.
  rewrite !bool_index_fmap, !bind_Ok.
  subst T2. rewrite filter_twice.
  set (g3 := λ x, g2 x && ((λ s : F, fgt s threshold) ∘ fst ∘ best) x).
  (* class lookup *)
  destruct (gather _ _) as [picked|e] eqn:Hpicked; cycle 1.
  { right. apply gather_Raise in Hpicked as (-> & k & Hk & Hle).
    split; [done|]. apply list_elem_of_fmap in Hk as (t & -> & _).
    specialize (Hbest t). simpl in *. lia. }
  left. rewrite bind_Ok.
  rewrite (gather_Ok_fmap _ _ to_int (-1) _ _ Hpicked). clear Hpicked picked.
  (* scatter into the labels *)
  unfold index_put, broadcast_to.
  rewrite !length_fmap, decide_True, bind_Ok by done.
  rewrite zip_with_fmap_same.
  set (lab := λ t, match boxes_cls (model color) !! (snd ∘ best) t with
                   | Some c => to_int c | None => -1 end).
  unfold T at 1. rewrite length_tag.
  pose proof (put_each_tag (-1) g3 lab (to_camera extrinsic <$> pcd) []) as Hput.
  simpl in Hput. fold T in Hput. etrans; [exact Hput|]. clear Hput. f_equal.
  change ((λ t, if g3 t then lab t else -1) <$> T)
    with (((λ pc, if g3 (0%nat, pc) then lab (0%nat, pc) else -1) ∘ snd) <$> T).
  rewrite (list_fmap_compose snd), <- Hpc, <- list_fmap_compose.
  apply list_fmap_ext. intros _ p _.
  unfold spec_label, resized, scores_at, class_of, compose. rewrite Hshape, Hmasks.
  generalize (to_camera extrinsic p). intros pc.
  rewrite <- list_fmap_compose.
  unfold g3, g2, g1, lab, pu, pv, compose. cbn [fst snd].
  destruct (fgt (depth pc) fzero); [|done].
  destruct (in_bounds_px _ _ _ _); [|done]. cbn [andb max_column fmap list_fmap].
  change (max_scan 1 _ _) with (best (0%nat, pc)).
  by destruct (best (0%nat, pc)) as [s k].
Qed.

Lemma segment_no_masks model intrinsic extrinsic pcd color :
  masks_data (model color) = [] →
  segment_pcd_from_2d shape interpolate model intrinsic extrinsic pcd color
  = Raise IndexError.
Proof.
  intros HK. unfold segment_pcd_from_2d.
  destruct (shape color) as [Hh Ww]. cbv zeta. rewrite HK.
  rewrite bool_index_filter, bind_Ok.
  rewrite zip_with_fmap_same, !bool_index_fmap, !bind_Ok.
  unfold bool_index. by case_decide.
Qed.

Lemma segment_returns model intrinsic extrinsic pcd color :
  masks_data (model color) ≠ [] →
  (length (masks_data (model color)) ≤ length (boxes_cls (model color)))%nat →
  segment_pcd_from_2d shape interpolate model intrinsic extrinsic pcd color
  = Ok (spec_label shape interpolate model intrinsic extrinsic color <$> pcd).
Proof.
  intros HK Hcls. destruct (segment_cases model intrinsic extrinsic pcd color HK)
    as [?|[_ ?]]; [done|lia].
Qed.

Lemma segment_partial model intrinsic extrinsic pcd color labels :
  segment_pcd_from_2d shape interpolate model intrinsic extrinsic pcd color
  = Ok labels →
  labels = spec_label shape interpolate model intrinsic extrinsic color <$> pcd.
Proof.
  intros Hok. destruct (masks_data (model color)) as [|m0 ms] eqn:HK.
  - by rewrite (segment_no_masks _ _ _ _ _ HK) in Hok.
  - destruct (segment_cases model intrinsic extrinsic pcd color) as [Heq|[Heq _]];
      [by rewrite HK| |]; rewrite Heq in Hok; congruence.
Qed.

Lemma label_at model intrinsic extrinsic pcd color labels i p :
  segment_pcd_from_2d shape interpolate model intrinsic extrinsic pcd color
  = Ok labels →
  pcd !! i = Some p →
  labels !! i = Some (spec_label shape interpolate model intrinsic extrinsic color p).
Proof.
  intros ->%segment_partial Hp. by rewrite list_lookup_fmap, Hp.
Qed.

Lemma spec_label_behind model intrinsic extrinsic color p :
  fgt (depth (to_camera extrinsic p)) fzero = false →
  spec_label shape interpolate model intrinsic extrinsic color p = -1.
Proof. intros Hz. unfold spec_label. by rewrite Hz. Qed.

Lemma spec_label_outside model intrinsic extrinsic color p :
  in_bounds_px (shape color).2 (shape color).1
    (project_u intrinsic (to_camera extrinsic p))
    (project_v intrinsic (to_camera extrinsic p)) = false →
  spec_label shape interpolate model intrinsic extrinsic color p = -1.
Proof.
  intros Hb. unfold spec_label. rewrite Hb. by destruct (fgt _ _).
Qed.

Lemma spec_label_scored model intrinsic extrinsic color p s k :
  survives shape intrinsic extrinsic color p = true →
  max_column (pixel_scores shape interpolate model intrinsic extrinsic color p)
  = Some (s, k) →
  spec_label shape interpolate model intrinsic extrinsic color p
  = if fgt s threshold then class_of (boxes_cls (model color)) k else -1.
Proof.
  unfold survives, pixel_scores, spec_label.
  intros [Hz Hb]%andb_true_iff Hmax. by rewrite Hz, Hb, Hmax.
Qed.

Lemma scored_nonempty model intrinsic extrinsic color p s k :
  max_column (pixel_scores shape interpolate model intrinsic extrinsic color p)
  = Some (s, k) →
  masks_data (model color) ≠ []
  ∧ (k < length (masks_data (model color)))%nat.
Proof.
  intros Hmax. pose proof (max_column_index _ _ _ Hmax) as Hk.
  unfold pixel_scores, scores_at, resized in Hk. rewrite !length_fmap in Hk.
  split; [|done]. intros Hnil. rewrite Hnil in Hk. simpl in Hk. lia.
Qed.
End Refinement.
End SegmentationFacts.

Module ExactFacts.
Import Tensor Segmentation Controller Exact.

#[global] Instance Q_laws : FloatLaws Q.
Proof.
  split; simpl.
  - intros a b Hab. apply Qeq_bool_iff in Hab. apply negb_false_iff.
    apply Qle_bool_iff. rewrite Hab. apply Qle_refl.
  - intros a b Hab. by apply negb_false_iff.
  - done.
  - intros a b _ _ Hab. apply Qle_bool_iff.
    apply Qlt_le_weak, Qnot_le_lt. intros Hle.
    apply Qle_bool_iff in Hle. congruence.
  - intros a b c Hab Hbc. apply Qle_bool_iff.
    apply Qle_trans with b; by apply Qle_bool_iff.
  - done.
Qed.

(** [round_half_even] stays within one half of its argument. *)
Lemma round_half_even_nearest (q : Q) :
  (Qabs (q - inject_Z (round_half_even q)) <= 1 # 2)%Q.
Proof.
  unfold round_half_even.
  pose proof (Qfloor_le q) as Hlo. pose proof (Qlt_floor q) as Hhi.
  rewrite inject_Z_plus in Hhi. change (inject_Z 1) with 1%Q in Hhi.
  apply Qabs_Qle_condition.
  destruct (q - inject_Z (Qfloor q) ?= 1 # 2)%Q eqn:Hcmp.
  - apply Qeq_alt in Hcmp. destruct (Z.even (Qfloor q));
      rewrite ?inject_Z_plus; change (inject_Z 1) with 1%Q; lra.
  - apply Qlt_alt in Hcmp. lra.
  - apply Qgt_alt in Hcmp. rewrite inject_Z_plus.
    change (inject_Z 1) with 1%Q. lra.
Qed.

(** The scene of the specification: the point (0, 0, 2) projects to pixel
    (320, 240), and a full-frame mask of score 0.9 and class 3 labels it 3. *)
Example scene_projects_to_centre :
  (project_u intrinsic_500 (to_camera identity (0, 0, 2)%Q),
   project_v intrinsic_500 (to_camera identity (0, 0, 2)%Q)) = (320, 240).
Proof. reflexivity. Qed.

Example scene_label :
  fuse [uniform (9 # 10)] [3%Q] [(0, 0, 2)%Q] = Ok [3].
Proof. reflexivity. Qed.

Example scene_mixed :
  fuse [uniform (3 # 10); uniform (9 # 10)] [3%Q; 5%Q]
    [(0, 0, 2)%Q; (0, 0, -1)%Q; (5, 0, 1)%Q; (0, 0, 1)%Q]
  = Ok [5; -1; -1; 5].
Proof. reflexivity. Qed.
End ExactFacts.

(** * Label fusion: the properties of the specification *)

Module FusionClaims.
Import Tensor TensorFacts Segmentation SegmentationFacts Exact ExactFacts.

Section Claims.
Context {F : Type} {float : Float F} {laws : FloatLaws F}.
Context {Image RawMask : Type}.
Variable shape : Image → nat * nat.
Variable interpolate : RawMask → nat → nat → Z → Z → F.
Local Abbreviation Results := (@Results F RawMask).
Local Abbreviation point := (@point F).
Local Abbreviation matrix := (@matrix F).
Implicit Types (model : Image → Results) (intrinsic extrinsic : matrix)
  (pcd : list point) (color : Image) (labels : list Z).

Lemma in_bounds_px_spec (W H : nat) (u v : Z) :
  in_bounds_px W H u v = true ↔ (0 ≤ u < Z.of_nat W ∧ 0 ≤ v < Z.of_nat H).
Proof. unfold in_bounds_px. rewrite !andb_true_iff. lia. Qed.

(** For K >= 1 masks with a class each, the function returns one label per
    point, in the order of the points, and a point that fails the depth
    test, the bounds test or the threshold test carries -1. *)
Lemma one_label_per_point model intrinsic extrinsic pcd color :
  masks_data (model color) ≠ [] →
  classes_cover (model color) →
  ∃ labels,
    segment_pcd_from_2d shape interpolate model intrinsic extrinsic pcd color
    = Ok labels
    ∧ length labels = length pcd
    ∧ (∀ i, labels !! i
            = spec_label shape interpolate model intrinsic extrinsic color
                <$> pcd !! i)
    ∧ (∀ i p, pcd !! i = Some p →
         fgt (depth (to_camera extrinsic p)) fzero = false
         ∨ survives shape intrinsic extrinsic color p = false
         ∨ (∃ s k, max_column (pixel_scores shape interpolate model intrinsic
                                 extrinsic color p) = Some (s, k)
                   ∧ fgt s threshold = false) →
         labels !! i = Some (-1)).
Proof.
  intros HK Hcls. eexists. split; [by apply segment_returns|].
  split; [by rewrite length_fmap|]. split; [intros i; by rewrite list_lookup_fmap|].
  intros i p Hp Hfiltered. rewrite list_lookup_fmap, Hp. simpl. f_equal.
  destruct Hfiltered as [Hz|[Hs|(s & k & Hmax & Hthr)]].
  - by apply spec_label_behind.
  - unfold survives in Hs. apply andb_false_iff in Hs as [Hz|Hb];
      [by apply spec_label_behind|by apply spec_label_outside].
  - destruct (survives shape intrinsic extrinsic color p) eqn:Hs.
    + by rewrite (spec_label_scored _ _ _ _ _ _ _ _ _ Hs Hmax), Hthr.
    + unfold survives in Hs. apply andb_false_iff in Hs as [Hz|Hb];
        [by apply spec_label_behind|by apply spec_label_outside].
Qed.

(** C2. With K = 0 masks the specification asks for N labels, all -1, and
    the point-by-point reading of the algorithm gives -1 for every point;
    the function does not return them: the reduction [torch.max(_, dim=0)]
    over the empty mask dimension raises. *)
Theorem no_detections_raise model intrinsic extrinsic pcd color :
  masks_data (model color) = [] →
  (∀ p, spec_label shape interpolate model intrinsic extrinsic color p = -1)
  ∧ segment_pcd_from_2d shape interpolate model intrinsic extrinsic pcd color
    = Raise IndexError
  ∧ ¬ ∃ labels,
        segment_pcd_from_2d shape interpolate model intrinsic extrinsic pcd color
        = Ok labels.
Proof.
  intros HK. rewrite (segment_no_masks _ _ _ _ _ _ _ HK). split; [|split].
  - intros p. unfold spec_label, resized, scores_at. rewrite HK. simpl.
    by repeat case_match.
  - done.
  - by intros [labels ?].
Qed.


(** C4. A point whose camera-frame depth is [<= 0] is labelled -1, whatever
    the masks hold: in every label array the function returns, and it
    returns one whenever there is a mask and a class for each mask. *)
Theorem behind_camera_is_unlabeled model intrinsic extrinsic pcd color i p :
  pcd !! i = Some p →
  fle (depth (to_camera extrinsic p)) fzero = true →
  (∀ labels,
     segment_pcd_from_2d shape interpolate model intrinsic extrinsic pcd color
     = Ok labels →
     labels !! i = Some (-1))
  ∧ (masks_data (model color) ≠ [] → classes_cover (model color) →
     ∃ labels,
       segment_pcd_from_2d shape interpolate model intrinsic extrinsic pcd color
       = Ok labels
       ∧ labels !! i = Some (-1)).
Proof.
  intros Hp Hz. apply fle_not_fgt in Hz.
  assert (Hall : ∀ labels,
    segment_pcd_from_2d shape interpolate model intrinsic extrinsic pcd color
    = Ok labels →
    labels !! i = Some (-1)).
  { intros labels Hret. rewrite (label_at _ _ _ _ _ _ _ _ _ _ Hret Hp).
    by rewrite spec_label_behind. }
  split; [done|]. intros HK Hcls. eexists. split; [by apply segment_returns|].
  apply Hall. by apply segment_returns.
Qed.

(** C5. A point in front of the camera, at camera-frame [(x, y, z)], is
    looked up at the pixel [u = round(x*fx/z + cx)], [v = round(y*fy/z +
    cy)]: outside [0, W) x [0, H) its label is -1, inside it is the label
    the mask scores at [(u, v)] give. *)
Theorem outside_image_is_unlabeled model intrinsic extrinsic pcd color
    i p x y z :
  pcd !! i = Some p →
  to_camera extrinsic p = (x, y, z) →
  fgt z fzero = true →
  let fx := intrinsic 0%nat 0%nat in
  let fy := intrinsic 1%nat 1%nat in
  let cx := intrinsic 0%nat 2%nat in
  let cy := intrinsic 1%nat 2%nat in
  let u := round_long (fadd (fdiv (fmul x fx) z) cx) in
  let v := round_long (fadd (fdiv (fmul y fy) z) cy) in
  let W := Z.of_nat (shape color).2 in
  let H := Z.of_nat (shape color).1 in
  (∀ labels,
     segment_pcd_from_2d shape interpolate model intrinsic extrinsic pcd color
     = Ok labels →
     (¬ (0 ≤ u < W ∧ 0 ≤ v < H) → labels !! i = Some (-1))
     ∧ (0 ≤ u < W ∧ 0 ≤ v < H →
        labels !! i
        = Some
            match
              max_column (scores_at (resized shape interpolate model color) u v)
            with
            | Some (s, k) =>
                if fgt s threshold
                then class_of (boxes_cls (model color)) k else -1
            | None => -1
            end))
  ∧ (masks_data (model color) ≠ [] → classes_cover (model color) →
     ∃ labels,
       segment_pcd_from_2d shape interpolate model intrinsic extrinsic pcd color
       = Ok labels).
Proof.
  intros Hp Hcam Hz fx fy cx cy u v W H'. split.
  - intros labels Hret. rewrite (label_at _ _ _ _ _ _ _ _ _ _ Hret Hp).
    unfold spec_label. rewrite Hcam. unfold depth. cbn [snd project_u project_v].
    rewrite Hz. fold fx fy cx cy. fold u v.
    destruct (in_bounds_px _ _ u v) eqn:Hb.
    + apply in_bounds_px_spec in Hb. split; [by intros []|done].
    + split; [done|]. intros Hin%in_bounds_px_spec. congruence.
  - intros HK Hcls. eexists. by apply segment_returns.
Qed.

(** C6. Take a point that passes the depth and bounds tests, and let [s] be
    the maximum of the mask scores at its pixel and [k] the lowest mask
    index that attains it: [s] is the score of mask [k], no score exceeds
    [s], and every mask of a lower index scores strictly less. However many
    masks of a higher index tie with [s], the reduction returns [(s, k)],
    and the point gets the class id of mask [k] (when [s > 0.5]; otherwise
    it fails the threshold test and gets -1). *)
Theorem tie_goes_to_lowest_mask model intrinsic extrinsic pcd color i p s k :
  let scores :=
    pixel_scores shape interpolate model intrinsic extrinsic color p in
  classes_cover (model color) →
  pcd !! i = Some p →
  survives shape intrinsic extrinsic color p = true →
  scores !! k = Some s →
  (∀ j x, scores !! j = Some x → fle x s = true) →
  (∀ j x, (j < k)%nat → scores !! j = Some x → fle s x = false) →
  ∃ labels c,
    segment_pcd_from_2d shape interpolate model intrinsic extrinsic pcd color
    = Ok labels
    ∧ max_column scores = Some (s, k)
    ∧ boxes_cls (model color) !! k = Some c
    ∧ labels !! i = Some (if fgt s threshold then to_int c else -1).
Proof.
  intros scores Hcls Hp Hs Hk Hall Hbelow.
  pose proof (max_column_lowest_maximum _ _ _ Hk Hall Hbelow) as Hmax.
  destruct (scored_nonempty _ _ _ _ _ _ _ _ _ Hmax) as [HK Hlt].
  destruct (lookup_lt_is_Some_2 (boxes_cls (model color)) k) as [c Hc];
    [unfold classes_cover in Hcls; lia|].
  pose proof (segment_returns shape interpolate _ intrinsic extrinsic pcd _ HK Hcls)
    as Hret.
  pose proof (label_at _ _ _ _ _ _ _ _ _ _ Hret Hp) as Hi.
  rewrite (spec_label_scored _ _ _ _ _ _ _ _ _ Hs Hmax) in Hi.
  unfold class_of in Hi. rewrite Hc in Hi.
  eexists _, c. split; [exact Hret|]. split; [done|]. split; [done|].
  exact Hi.
Qed.
End Claims.

(** C1. The specification promises a label array of length N for every
    detection set. On two points and an empty detection set the function
    raises at the reduction over the masks and returns no array. *)
Theorem empty_detection_set_gives_no_labels :
  let pcd := [(0, 0, 2)%Q; (0, 0, -1)%Q] in
  fuse [] [] pcd = Raise IndexError
  ∧ ¬ ∃ labels, fuse [] [] pcd = Ok labels ∧ length labels = length pcd.
Proof.
  split; [reflexivity|]. intros (labels & Hret & _). discriminate Hret.
Qed.

(** A detector that reports nothing, and one point in front of the camera. *)
Lemma no_detections_raise_witness :
  (∀ p, spec_label shape_of keep_size (detector [] []) intrinsic_500 identity
          vga p = -1)
  ∧ fuse [] [] [(0, 0, 2)%Q] = Raise IndexError
  ∧ ¬ ∃ labels, fuse [] [] [(0, 0, 2)%Q] = Ok labels.
Proof.
  apply (no_detections_raise shape_of keep_size (detector [] []) intrinsic_500
           identity [(0, 0, 2)%Q] vga).
  reflexivity.
Defined.


(** The second point lies behind the camera. *)
Lemma behind_camera_is_unlabeled_witness :
  ∃ labels,
    fuse [uniform (9 # 10)] [3%Q] [(0, 0, 2)%Q; (0, 0, -1)%Q] = Ok labels
    ∧ labels !! 1%nat = Some (-1).
Proof.
  destruct (behind_camera_is_unlabeled shape_of keep_size
              (detector [uniform (9 # 10)] [3%Q]) intrinsic_500 identity
              [(0, 0, 2)%Q; (0, 0, -1)%Q] vga 1%nat (0, 0, -1)%Q)
    as [_ Hret].
  - reflexivity.
  - reflexivity.
  - apply Hret; [discriminate|]. unfold classes_cover. simpl. lia.
Defined.

(** The point (5, 0, 1) projects to column 2820 of a 640 x 480 image. *)
Lemma outside_image_is_unlabeled_witness :
  ∃ labels,
    fuse [uniform (9 # 10)] [3%Q] [(5, 0, 1)%Q] = Ok labels
    ∧ labels !! 0%nat = Some (-1).
Proof.
  destruct (outside_image_is_unlabeled shape_of keep_size
              (detector [uniform (9 # 10)] [3%Q]) intrinsic_500 identity
              [(5, 0, 1)%Q] vga 0%nat (5, 0, 1)%Q
              (row_dot identity 0 (5, 0, 1)%Q)
              (row_dot identity 1 (5, 0, 1)%Q)
              (row_dot identity 2 (5, 0, 1)%Q))
    as [Hall Hreturns].
  - reflexivity.
  - reflexivity.
  - reflexivity.
  - destruct Hreturns as [labels Hret];
      [discriminate|unfold classes_cover; simpl; lia|].
    exists labels. split; [exact Hret|].
    destruct (Hall labels Hret) as [Hout _]. apply Hout.
    vm_compute. intros [[_ Hu] _]. discriminate Hu.
Defined.

(** Three masks of scores 0.6, 0.9 and 0.9, of classes 1, 2 and 3: the
    maximum 0.9 is attained by the second and the third mask, and the point
    gets class 2, neither the class of the first mask nor that of the
    last. *)
Lemma tie_goes_to_lowest_mask_witness :
  ∃ labels,
    fuse [uniform (6 # 10); uniform (9 # 10); uniform (9 # 10)]
      [1%Q; 2%Q; 3%Q] [(0, 0, 2)%Q]
    = Ok labels
    ∧ labels !! 0%nat = Some 2.
Proof.
  destruct (tie_goes_to_lowest_mask shape_of keep_size
              (detector [uniform (6 # 10); uniform (9 # 10); uniform (9 # 10)]
                 [1%Q; 2%Q; 3%Q])
              intrinsic_500 identity [(0, 0, 2)%Q] vga 0%nat (0, 0, 2)%Q
              (9 # 10)%Q 1%nat)
    as (labels & c & Hret & _ & Hc & Hi).
  - unfold classes_cover. simpl. lia.
  - reflexivity.
  - reflexivity.
  - reflexivity.
  - intros [|[|[|j]]] x Hx; vm_compute in Hx; [..|discriminate Hx];
      injection Hx as <-; reflexivity.
  - intros [|j] x Hj Hx; [|lia]. vm_compute in Hx.
    injection Hx as <-. reflexivity.
  - exists labels. split; [exact Hret|]. rewrite Hi. f_equal.
    injection Hc as <-. reflexivity.
Defined.
End FusionClaims.

Module ControllerFacts.
Import Controller.

Section Facts.
Context {F : Type} {float : Float F} {laws : FloatLaws F}.
Context {Camera FrameElements Engine : Type}.
Variable unproject : Camera → Z → Z → F → Z → Z → F * F * F.
Variable format_3f : F → string.
Local Abbreviation View := (@View Camera FrameElements).
Local Abbreviation Model := (@Model Engine).
Local Abbreviation World := (@World Camera FrameElements Engine).
Variable view_update : FrameElements → View → View.
Variable model_intialization : Model → Model.
Local Abbreviation run := (run unproject format_3f view_update model_intialization).
Local Abbreviation step := (step unproject format_3f view_update model_intialization).
Local Abbreviation reachable :=
  (reachable unproject format_3f view_update model_intialization).

Ltac run_method :=
  unfold on_toggle_capture, on_toggle_record, on_toggle_normals,
    on_window_close, on_save_pcd, on_toggle_model_init, on_save_rgbd,
    update_view, _on_mouse_widget3d, depth_callback, run_callback,
    update_label, with_cv_capture, on_cv, post_to_main_thread,
    render_to_depth_image, modify_view, modify_model, modify, get,
    mbind, mret, M_bind, M_ret in *.

Lemma run_keeps_idle (c : Call) (w w' : World) :
  run c w = Ok (tt, w') →
  drawing_rectangle w = false → drawing_rectangle w' = false.
Proof.
  intros Hrun Hidle. destruct c; unfold Controller.run in Hrun; run_method;
    cbn in Hrun; repeat case_match; simplify_eq; done.
Qed.

Lemma step_keeps_idle (w w' : World) :
  step w w' → drawing_rectangle w = false → drawing_rectangle w' = false.
Proof.
  intros [c w1 w2 Hrun|w1 w2 Hsame _ _] Hidle.
  - by apply (run_keeps_idle c w1).
  - congruence.
Qed.

Lemma reachable_idle (w : World) : reachable w → drawing_rectangle w = false.
Proof.
  induction 1 as [model view|w w' _ IH Hstep]; [done|].
  by apply (step_keeps_idle w).
Qed.

(** [notify] and [notify_all] outside the lock raise. *)
Lemma notify_needs_lock (c : Condition) (n : nat) :
  held c = 0%nat →
  cv_notify n c = Raise RuntimeError ∧ cv_notify_all c = Raise RuntimeError.
Proof. unfold cv_notify, cv_notify_all. by intros ->. Qed.

(** What a pointer event does to the depth requests: nothing, or one request
    at a pixel inside the widget. *)
Lemma mouse_requests (event : MouseEvent) (w w' : World) r :
  _on_mouse_widget3d event w = Ok (r, w') →
  depth_requests w' = depth_requests w
  ∨ ∃ x y, depth_requests w' = depth_requests w ++ [(x, y)]
           ∧ 0 ≤ x < frame_width (frame (pipeline_view w))
           ∧ 0 ≤ y < frame_height (frame (pipeline_view w)).
Proof.
  intros Hrun. run_method. cbn in Hrun.
  repeat case_match; simplify_eq; try (by left).
  right. eexists _, _. split; [done|]. lia.
Qed.

(** C7. Switching capture off clears the model's record flag and, when the
    record control exists, turns it off; switching capture on notifies the
    capture condition between acquiring and releasing its lock, which
    releases the oldest parked waiter. *)
Theorem toggle_capture_effects (w : World) :
  (∃ w', on_toggle_capture false w = Ok (tt, w')
     ∧ flag_capture (pipeline_model w') = false
     ∧ flag_record (pipeline_model w') = false
     ∧ toggle_record (pipeline_view w')
       = if toggle_record (pipeline_view w) is Some _ then Some false else None)
  ∧ (∃ w', on_toggle_capture true w = Ok (tt, w')
     ∧ flag_capture (pipeline_model w') = true
     ∧ calls (cv_capture (pipeline_model w'))
       = calls (cv_capture (pipeline_model w)) ++ [Acquire; Notify 1; Release]
     ∧ waiters (cv_capture (pipeline_model w'))
       = drop 1 (waiters (cv_capture (pipeline_model w)))
     ∧ woken (cv_capture (pipeline_model w'))
       = woken (cv_capture (pipeline_model w))
         ++ take 1 (waiters (cv_capture (pipeline_model w)))
     ∧ held (cv_capture (pipeline_model w'))
       = held (cv_capture (pipeline_model w))).
Proof.
  split.
  - run_method. cbn. destruct (toggle_record (pipeline_view w)) eqn:Hrec;
      eexists; (split; [reflexivity|]); cbn; by rewrite ?Hrec.
  - run_method. cbn. eexists. split; [reflexivity|]. cbn.
    by rewrite <- !(assoc_L (++)).
Qed.

(** C8. Closing the window sets the exit flag, calls [notify_all] between
    acquiring and releasing the lock of the capture condition, which leaves
    no waiter parked, and returns [True]. *)
Theorem window_close_wakes_all (w : World) :
  ∃ w', on_window_close w = Ok (true, w')
    ∧ flag_exit (pipeline_model w') = true
    ∧ calls (cv_capture (pipeline_model w'))
      = calls (cv_capture (pipeline_model w)) ++ [Acquire; NotifyAll; Release]
    ∧ waiters (cv_capture (pipeline_model w')) = []
    ∧ woken (cv_capture (pipeline_model w'))
      = woken (cv_capture (pipeline_model w))
        ++ waiters (cv_capture (pipeline_model w))
    ∧ held (cv_capture (pipeline_model w'))
      = held (cv_capture (pipeline_model w)).
Proof.
  run_method. cbn. eexists. split; [reflexivity|]. cbn.
  by rewrite <- !(assoc_L (++)), drop_all, firstn_all.
Qed.

(** C9. A depth query issued by the pointer handler for pixel [(x, y)], once
    completed with a depth image: outside the image the depth is the far
    plane 1.0; a depth equal to 1.0 gives the text "Mouse Coord: Clicked on
    nothing", any other depth the text "Mouse Coord: (X, Y, Z)" of the three
    coordinates, each formatted with three decimals, of the point
    unprojected through the camera of that moment; and the callback itself
    only posts [update_label] to the main thread, which is what writes the
    label. *)
Theorem depth_pick_protocol (event : MouseEvent) (w w' : World) r (x y : Z) :
  _on_mouse_widget3d event w = Ok (r, w') →
  depth_requests w' = depth_requests w ++ [(x, y)] →
  ∀ (depth_image : ndarray) (w1 : World),
    let inside := 0 ≤ y < Z.of_nat (shape0 depth_image)
                  ∧ 0 ≤ x < Z.of_nat (shape1 depth_image) in
    let v := pipeline_view w1 in
    ∃ (depth : F) (text : string) (w1' : World),
      depth_callback unproject format_3f x y depth_image w1 = Ok (tt, w1')
      ∧ (inside → depth = item depth_image y x)
      ∧ (¬ inside →
         depth = fone ∧ text = "Mouse Coord: Clicked on nothing"%string)
      ∧ (feq depth fone = true →
         text = "Mouse Coord: Clicked on nothing"%string)
      ∧ (feq depth fone = false →
         ∃ X Y Z : F,
           unproject (camera v) x y depth
             (frame_width (frame v)) (frame_height (frame v)) = (X, Y, Z)
           ∧ text = ("Mouse Coord: (" ++ format_3f X ++ ", " ++ format_3f Y
                       ++ ", " ++ format_3f Z ++ ")")%string)
      ∧ pipeline_view w1' = pipeline_view w1
      ∧ main_thread_queue w1' = main_thread_queue w1 ++ [UpdateLabel text]
      ∧ (∀ w2 : World, ∃ w3,
           run_callback view_update (UpdateLabel text) w2 = Ok (tt, w3)
           ∧ mouse_coord (pipeline_view w3) = text).
Proof.
  intros Hrun Hreq depth_image w1 inside v.
  assert (0 ≤ x ∧ 0 ≤ y) as [Hx Hy].
  { destruct (mouse_requests _ _ _ _ Hrun) as [Hsame|(x' & y' & Hnew & ? & ?)].
    - rewrite Hsame in Hreq. apply (f_equal length) in Hreq.
      rewrite length_app in Hreq. simpl in Hreq. lia.
    - rewrite Hnew in Hreq. apply app_inj_tail in Hreq as [_ [= -> ->]]. lia. }
  assert (Hlabel : ∀ text (w2 : World), ∃ w3,
    run_callback view_update (UpdateLabel text) w2 = Ok (tt, w3)
    ∧ mouse_coord (pipeline_view w3) = text).
  { intros text w2. run_method. cbn. by eexists. }
  unfold depth_callback. run_method. cbn.
  destruct ((y <? Z.of_nat (shape0 depth_image))
            && (x <? Z.of_nat (shape1 depth_image))) eqn:Hin.
  - apply andb_true_iff in Hin as [Hyin Hxin].
    unfold getitem.
    destruct (Z.ltb_spec y 0); [lia|]. destruct (Z.ltb_spec x 0); [lia|].
    rewrite Hyin, Hxin.
    destruct (Z.leb_spec 0 y); [|lia]. destruct (Z.leb_spec 0 x); [|lia].
    cbn. destruct (feq (item depth_image y x) fone) eqn:Hfar; cbn.
    + exists (item depth_image y x), nothing_text. eexists.
      split; [reflexivity|]. split; [done|]. split; [unfold inside; lia|].
      rewrite Hfar. do 4 (split; [done|]). apply Hlabel.
    + exists (item depth_image y x).
      exists (coord_text format_3f
                (unproject (camera v) x y (item depth_image y x)
                   (frame_width (frame v)) (frame_height (frame v)))).
      eexists.
      split; [reflexivity|]. split; [done|]. split; [unfold inside; lia|].
      rewrite Hfar. split; [done|]. split.
      { intros _.
        destruct (unproject (camera v) x y (item depth_image y x)
                    (frame_width (frame v)) (frame_height (frame v)))
          as [[X Y] Z].
        by exists X, Y, Z. }
      do 2 (split; [done|]). apply Hlabel.
  - exists fone, nothing_text. rewrite feq_one. cbn. eexists.
    split; [reflexivity|]. split; [unfold inside; lia|].
    do 5 (split; [done|]). apply Hlabel.
Qed.

(** C10. [drawing_rectangle] is [False] after [__init__] and in every state
    the controller can reach, so a DRAG or BUTTON_UP event is answered
    IGNORED and changes nothing. *)
Theorem drawing_is_unreachable (w : World) (event : MouseEvent) :
  reachable w →
  ev_type event = DRAG ∨ ev_type event = BUTTON_UP →
  drawing_rectangle w = false
  ∧ _on_mouse_widget3d event w = Ok (IGNORED, w).
Proof.
  intros Hidle%reachable_idle Hev. split; [done|].
  run_method. cbn. rewrite Hidle.
  destruct Hev as [-> | ->]; by repeat case_match.
Qed.
End Facts.

Import Exact ExactFacts.

(** A Ctrl-click at (105, 57) asks for the depth at pixel (5, 7). A depth
    image that is 1.0 everywhere makes the callback post "Clicked on
    nothing", and so does a depth image of 4 x 4 pixels, which does not
    hold the pixel; a depth image that is 0.5 everywhere makes it post the
    three coordinates (here in thousandths), in the order x, y, z. *)
Lemma depth_pick_protocol_witness :
  (∃ w1',
     depth_callback flat_unproject thousandths 5 7 (flat_depth 1) idle_world
     = Ok (tt, w1')
     ∧ mouse_coord (pipeline_view w1') = mouse_coord (pipeline_view idle_world)
     ∧ main_thread_queue w1'
       = [UpdateLabel "Mouse Coord: Clicked on nothing"])
  ∧ (∃ w1',
       depth_callback flat_unproject thousandths 5 7
         {| shape0 := 4; shape1 := 4; item := λ _ _, (1 # 2)%Q |} idle_world
       = Ok (tt, w1')
       ∧ main_thread_queue w1'
         = [UpdateLabel "Mouse Coord: Clicked on nothing"])
  ∧ (∃ w1',
       depth_callback flat_unproject thousandths 5 7 (flat_depth (1 # 2))
         idle_world
       = Ok (tt, w1')
       ∧ mouse_coord (pipeline_view w1')
         = mouse_coord (pipeline_view idle_world)
       ∧ main_thread_queue w1'
         = [UpdateLabel "Mouse Coord: (5000, 7000, 500)"]).
Proof.
  pose proof (depth_pick_protocol flat_unproject thousandths (λ _ v, v)
                (ctrl_click 105 57) idle_world
                (set_depth_requests [(5, 7)] idle_world) HANDLED 5 7
                eq_refl eq_refl) as Hpick.
  split; [|split].
  - destruct (Hpick (flat_depth 1) idle_world)
      as (depth & text & w1' & Hrun & Hin & _ & Hfar & _ & Hview & Hqueue & _).
    exists w1'. split; [exact Hrun|]. split; [by rewrite Hview|].
    rewrite Hqueue, Hfar; [reflexivity|].
    rewrite Hin; [reflexivity|]. simpl. lia.
  - destruct (Hpick {| shape0 := 4; shape1 := 4; item := λ _ _, (1 # 2)%Q |}
                idle_world)
      as (depth & text & w1' & Hrun & _ & Hout & _ & _ & _ & Hqueue & _).
    exists w1'. split; [exact Hrun|].
    rewrite Hqueue. destruct Hout as [_ ->]; [simpl; lia|]. reflexivity.
  - destruct (Hpick (flat_depth (1 # 2)) idle_world)
      as (depth & text & w1' & Hrun & Hin & _ & _ & Hhit & Hview & Hqueue & _).
    exists w1'. split; [exact Hrun|]. split; [by rewrite Hview|].
    rewrite Hqueue. rewrite Hin in Hhit by (simpl; lia).
    destruct Hhit as (X & Y & Z & [= <- <- <-] & ->); reflexivity.
Defined.

Lemma drawing_is_unreachable_witness :
  drawing_rectangle idle_world = false
  ∧ _on_mouse_widget3d (drag 3 4) idle_world = Ok (IGNORED, idle_world).
Proof.
  apply (drawing_is_unreachable flat_unproject thousandths (λ _ v, v) (λ m, m)).
  - apply (reachable_init _ _ _ _ parked_model idle_view).
  - left. reflexivity.
Defined.
End ControllerFacts.

(** * Label fusion: errors, chunks and label values *)

Module LabellingFacts.
Import Tensor TensorFacts Segmentation SegmentationFacts Labelling.

Section Lists.
Context {A B C : Type}.

Lemma filter_tag_snd (f : A → B) (g : A → bool) (l : list A) :
  ∀ o, (f ∘ snd) <$> List.filter (g ∘ snd) (tag o l) = f <$> List.filter g l.
Proof.
  induction l as [|x l IH]; intros o; [done|].
  rewrite tag_cons. csimpl. unfold compose at 2. simpl.
  destruct (g x); csimpl; by rewrite IH.
Qed.

Lemma filter_fmap (h : C → A) (g : A → bool) (l : list C) :
  List.filter g (h <$> l) = h <$> List.filter (g ∘ h) l.
Proof.
  induction l as [|x l IH]; csimpl; [done|].
  unfold compose at 1. destruct (g (h x)); csimpl; by rewrite IH.
Qed.

Lemma gather_app (src : list A) (ids ids' : list nat) :
  gather src (ids ++ ids')
  = xs ← gather src ids; ys ← gather src ids'; Ok (xs ++ ys).
Proof.
  induction ids as [|i ids IH]; csimpl.
  - by destruct (gather src ids').
  - destruct (src !! i); [|done]. rewrite IH.
    destruct (gather src ids); [|done]. csimpl.
    by destruct (gather src ids').
Qed.

End Lists.

Section Facts.
Context {F : Type} {float : Float F} {Image RawMask : Type}.
Variable shape : Image → nat * nat.
Variable interpolate : RawMask → nat → nat → Z → Z → F.
Local Abbreviation Results := (@Results F RawMask).
Local Abbreviation point := (@point F).
Local Abbreviation matrix := (@matrix F).
Implicit Types (model : Image → Results) (intrinsic extrinsic : matrix)
  (pcd : list point) (color : Image) (labels : list Z).

(** With at least one mask, the call succeeds or fails with its class
    lookups, and when it succeeds it returns the labels read point by
    point. *)
Lemma segment_normal_form model intrinsic extrinsic pcd color :
  masks_data (model color) ≠ [] →
  segment_pcd_from_2d shape interpolate model intrinsic extrinsic pcd color
  = gather (boxes_cls (model color))
      (lookups shape interpolate model intrinsic extrinsic color pcd)
    ≫= λ _, Ok (spec_label shape interpolate model intrinsic extrinsic color
                  <$> pcd).
Proof.
  intros HK. unfold segment_pcd_from_2d, lookups.
  destruct (shape color) as [Hh Ww] eqn:Hshape.
  cbv zeta.
  set (T := tag 0 (to_camera extrinsic <$> pcd)).
  assert (Hpc : to_camera extrinsic <$> pcd = T.*2) by (symmetry; apply snd_tag).
  assert (HN : length pcd = length (to_camera extrinsic <$> pcd))
    by (by rewrite length_fmap).
  rewrite HN, Hpc. clear HN.
  rewrite <- !list_fmap_compose.
  rewrite bool_index_fmap, bind_Ok.
  set (g1 := (λ pc : point, fgt (depth pc) fzero) ∘ snd).
  unfold nonzero.
  pose proof (nonzero_from_tag 0 g1 (to_camera extrinsic <$> pcd)) as Hnz.
  fold T in Hnz. rewrite Hnz. clear Hnz.
  rewrite <- !list_fmap_compose.
  rewrite zip_with_fmap_same.
  rewrite !bool_index_fmap, !bind_Ok.
  rewrite !filter_twice.
  set (pu := project_u intrinsic ∘ snd). set (pv := project_v intrinsic ∘ snd).
  set (g2 := λ x : nat * point, g1 x && in_bounds_px Ww Hh (pu x) (pv x)).
  set (T2 := List.filter g2 T).
  set (sc := λ (m : RawMask) (t : nat * point), interpolate m Hh Ww (pv t) (pu t)).
  rewrite <- list_fmap_compose.
  rewrite (list_fmap_ext _ (λ m, sc m <$> T2) (masks_data (model color)))
    by (intros i m _; exact (zip_with_fmap_same (interpolate m Hh Ww) pv pu T2)).
  destruct (masks_data (model color)) as [|m0 ms] eqn:Hmasks; [done|].
  unfold max_dim0. csimpl.
  rewrite <- list_fmap_compose, max_rows_fmap.
  set (best := λ t, max_scan 1 (((λ x : F, (x, 0%nat)) ∘ sc m0) t) ((λ m, sc m t) <$> ms)).
  rewrite <- !list_fmap_compose.
  rewrite !bool_index_fmap, !bind_Ok.
  subst T2. rewrite filter_twice.
  set (g3 := λ x, g2 x && ((λ s : F, fgt s threshold) ∘ fst ∘ best) x).
  (* the class lookups, read off the points *)
  assert (Hids : @snd F nat ∘ best <$> List.filter g3 T
                 = winner shape interpolate model intrinsic extrinsic color
                     <$> List.filter
                           (labelled shape interpolate model intrinsic extrinsic
                              color) pcd).
  { change (@snd F nat ∘ best) with ((λ pc, (best (0%nat, pc)).2) ∘ @snd nat point).
    change g3 with ((λ pc, g3 (0%nat, pc)) ∘ @snd nat point).
    unfold T. rewrite filter_tag_snd, filter_fmap, <- list_fmap_compose.
    assert (Hbest : ∀ p,
      max_column (pixel_scores shape interpolate model intrinsic extrinsic
                    color p) = Some (best (0%nat, to_camera extrinsic p))).
    { intros p. unfold pixel_scores, resized, scores_at.
      rewrite Hshape, Hmasks, <- list_fmap_compose. done. }
    rewrite (List.filter_ext _
               (labelled shape interpolate model intrinsic extrinsic color)).
    2:{ intros p. unfold labelled, survives, compose. rewrite Hbest, Hshape.
        unfold g3, g2, g1, pu, pv, compose. cbn [fst snd].
        by destruct (best (0%nat, to_camera extrinsic p)). }
    apply list_fmap_ext. intros _ p _. unfold winner, compose. rewrite Hbest.
    by destruct (best (0%nat, to_camera extrinsic p)). }
  rewrite <- Hids. clear Hids.
  destruct (gather _ _) as [picked|e] eqn:Hpicked; [|done].
  rewrite !bind_Ok.
  rewrite (gather_Ok_fmap _ _ to_int (-1) _ _ Hpicked). clear Hpicked picked.
  unfold index_put, broadcast_to.
  rewrite !length_fmap, decide_True, bind_Ok by done.
  rewrite zip_with_fmap_same.
  set (lab := λ t, match boxes_cls (model color) !! (snd ∘ best) t with
                   | Some c => to_int c | None => -1 end).
  unfold T at 1. rewrite length_tag.
  pose proof (put_each_tag (-1) g3 lab (to_camera extrinsic <$> pcd) []) as Hput.
  simpl in Hput. fold T in Hput. etrans; [exact Hput|]. clear Hput. f_equal.
  change ((λ t, if g3 t then lab t else -1) <$> T)
    with (((λ pc, if g3 (0%nat, pc) then lab (0%nat, pc) else -1) ∘ snd) <$> T).
  rewrite (list_fmap_compose snd), <- Hpc, <- list_fmap_compose.
  apply list_fmap_ext. intros _ p _.
  unfold spec_label, resized, scores_at, class_of, compose. rewrite Hshape, Hmasks.
  generalize (to_camera extrinsic p). intros pc.
  rewrite <- list_fmap_compose.
  unfold g3, g2, g1, lab, pu, pv, compose. cbn [fst snd].
  destruct (fgt (depth pc) fzero); [|done].
  destruct (in_bounds_px _ _ _ _); [|done]. cbn [andb max_column fmap list_fmap].
  change (max_scan 1 _ _) with (best (0%nat, pc)).
  by destruct (best (0%nat, pc)) as [s k].
Qed.


(** A cloud may be labelled in chunks: the call on [pcd1 ++ pcd2] returns the
    labels of [pcd1] followed by those of [pcd2], and raises when the call on
    either chunk does. *)
Theorem chunks_are_independent model intrinsic extrinsic pcd1 pcd2 color :
  segment_pcd_from_2d shape interpolate model intrinsic extrinsic
    (pcd1 ++ pcd2) color
  = labels1 ← segment_pcd_from_2d shape interpolate model intrinsic extrinsic
                pcd1 color;
    labels2 ← segment_pcd_from_2d shape interpolate model intrinsic extrinsic
                pcd2 color;
    Ok (labels1 ++ labels2).
Proof.
  destruct (decide (masks_data (model color) = [])) as [HK|HK].
  { by rewrite !(segment_no_masks _ _ _ _ _ _ _ HK). }
  rewrite !(segment_normal_form _ _ _ _ _ HK). unfold lookups.
  rewrite List.filter_app, !fmap_app, gather_app.
  destruct (gather _ (_ <$> List.filter _ pcd1)) as [xs|e]; [|done]. csimpl.
  by destruct (gather _ (_ <$> List.filter _ pcd2)) as [ys|e].
Qed.

(** With at least one mask, an empty cloud gets an empty label array, also
    when [boxes.cls] is too short. *)
Theorem empty_cloud_is_labelled model intrinsic extrinsic color :
  masks_data (model color) ≠ [] →
  segment_pcd_from_2d shape interpolate model intrinsic extrinsic [] color
  = Ok [].
Proof. intros HK. by rewrite (segment_normal_form _ _ _ _ _ HK). Qed.

(** Every label the call returns is -1 or the class id, cast to an integer,
    of one of the K masks. *)
Theorem labels_are_class_ids model intrinsic extrinsic pcd color labels l :
  segment_pcd_from_2d shape interpolate model intrinsic extrinsic pcd color
  = Ok labels →
  l ∈ labels →
  l = -1
  ∨ ∃ k c, (k < length (masks_data (model color)))%nat
           ∧ boxes_cls (model color) !! k = Some c ∧ l = to_int c.
Proof.
  intros ->%segment_partial (p & -> & _)%list_elem_of_fmap.
  unfold spec_label. destruct (fgt (depth _) _); [|by left].
  destruct (in_bounds_px _ _ _ _); [|by left].
  destruct (max_column _) as [[s k]|] eqn:Hmax; [|by left].
  destruct (fgt s threshold); [|by left].
  apply max_column_index in Hmax.
  unfold scores_at, resized in Hmax. rewrite !length_fmap in Hmax.
  unfold class_of. destruct (boxes_cls (model color) !! k) as [c|] eqn:Hc;
    [|by left].
  right. by exists k, c.
Qed.

(** The label of a point depends on the point alone: two calls with the same
    camera, image and detections give equal points equal labels, wherever
    the points stand in their clouds and whatever the other points are. *)
Theorem label_depends_on_point_alone model intrinsic extrinsic color
    pcd pcd' labels labels' i j p :
  segment_pcd_from_2d shape interpolate model intrinsic extrinsic pcd color
  = Ok labels →
  segment_pcd_from_2d shape interpolate model intrinsic extrinsic pcd' color
  = Ok labels' →
  pcd !! i = Some p →
  pcd' !! j = Some p →
  labels !! i = labels' !! j ∧ is_Some (labels !! i).
Proof.
  intros Hret Hret' Hp Hp'.
  rewrite (label_at _ _ _ _ _ _ _ _ _ _ Hret Hp).
  by rewrite (label_at _ _ _ _ _ _ _ _ _ _ Hret' Hp').
Qed.
End Facts.

Import Exact ExactFacts.

(** One full-frame mask and no point at all. *)
Lemma empty_cloud_is_labelled_witness : fuse [uniform (9 # 10)] [] [] = Ok [].
Proof.
  apply (empty_cloud_is_labelled shape_of keep_size
           (detector [uniform (9 # 10)] []) intrinsic_500 identity vga).
  discriminate.
Defined.

(** Two masks of classes 3 and 5; the label 5 of the first point is the
    class of mask 1. *)
Lemma labels_are_class_ids_witness :
  5 = -1
  ∨ ∃ k c, (k < 2)%nat ∧ [3%Q; 5%Q] !! k = Some c ∧ 5 = truncate c.
Proof.
  exact (labels_are_class_ids shape_of keep_size
           (detector [uniform (3 # 10); uniform (9 # 10)] [3%Q; 5%Q])
           intrinsic_500 identity [(0, 0, 2)%Q; (0, 0, -1)%Q] vga [5; -1] 5
           eq_refl (list_elem_of_here 5 [-1])).
Defined.

(** The point (0, 0, 2) is labelled 3 as the only point of one cloud and as
    the second point of another. *)
Lemma label_depends_on_point_alone_witness :
  [3] !! 0%nat = [-1; 3] !! 1%nat ∧ is_Some ([3] !! 0%nat).
Proof.
  apply (label_depends_on_point_alone shape_of keep_size
           (detector [uniform (9 # 10)] [3%Q]) intrinsic_500 identity vga
           [(0, 0, 2)%Q] [(0, 0, -1)%Q; (0, 0, 2)%Q] [3] [-1; 3]
           0%nat 1%nat (0, 0, 2)%Q); reflexivity.
Defined.
End LabellingFacts.

(** * The controller: gating, flags and the capture lock *)

Module ProtocolFacts.
Import Controller ControllerFacts Protocol.

Section Facts.
Context {F : Type} {float : Float F}.
Context {Camera FrameElements Engine : Type}.
Variable unproject : Camera → Z → Z → F → Z → Z → F * F * F.
Variable format_3f : F → string.
Local Abbreviation View := (@View Camera FrameElements).
Local Abbreviation Model := (@Model Engine).
Local Abbreviation World := (@World Camera FrameElements Engine).
Local Abbreviation Call := (@Call F FrameElements).
Variable view_update : FrameElements → View → View.
Variable model_intialization : Model → Model.
Local Abbreviation run := (run unproject format_3f view_update model_intialization).
Local Abbreviation reachable :=
  (reachable unproject format_3f view_update model_intialization).
Local Abbreviation run_all :=
  (run_all unproject format_3f view_update model_intialization).

Ltac run_method :=
  unfold on_toggle_capture, on_toggle_record, on_toggle_normals,
    on_window_close, on_save_pcd, on_toggle_model_init, on_save_rgbd,
    update_view, _on_mouse_widget3d, depth_callback, run_callback,
    update_label, with_cv_capture, on_cv, post_to_main_thread,
    render_to_depth_image, modify_view, modify_model, modify, get,
    mbind, mret, M_bind, M_ret in *.

(** In every reachable state the pointer handler answers HANDLED exactly
    for a Ctrl + left button press while the view is in edit mode and not
    capturing, and IGNORED otherwise; it changes the state only by queueing
    one depth query at the widget-local pixel, and only when that pixel is
    inside the widget. *)
Theorem pointer_event_outcome (event : MouseEvent) (w : World) :
  reachable w →
  let v := pipeline_view w in
  let picking :=
    negb (capturing v) && edit_mode v
    && (if ev_type event is BUTTON_DOWN then true else false)
    && ev_ctrl event && ev_left event in
  let x := ev_x event - frame_x (frame v) in
  let y := ev_y event - frame_y (frame v) in
  let inside :=
    (0 <=? x) && (x <? frame_width (frame v))
    && (0 <=? y) && (y <? frame_height (frame v)) in
  _on_mouse_widget3d event w
  = Ok (if picking then HANDLED else IGNORED,
        if picking && inside
        then set_depth_requests (depth_requests w ++ [(x, y)]) w
        else w).
Proof.
  intros Hidle%reachable_idle v picking x y inside.
  subst picking inside x y v. run_method. cbn. rewrite Hidle.
  destruct (capturing (pipeline_view w)); [done|].
  destruct (edit_mode (pipeline_view w)); [|done]. cbn.
  destruct (ev_type event), (ev_ctrl event), (ev_left event); cbn; try done.
  by destruct (_ && _).
Qed.

(** Once capture is switched on, every pointer event is answered IGNORED
    and leaves the state as it is: no depth query is issued while
    capturing. *)
Theorem capture_on_blocks_picks (w : World) :
  ∃ w1, on_toggle_capture true w = Ok (tt, w1)
        ∧ on_mouse (pipeline_view w1) = None
        ∧ ∀ event, _on_mouse_widget3d event w1 = Ok (IGNORED, w1).
Proof.
  run_method. cbn. eexists. split; [reflexivity|]. split; [done|].
  intros event. done.
Qed.

(** Switching capture off twice is the same as switching it off once. *)
Theorem capture_off_is_idempotent (w : World) :
  ∃ w1, on_toggle_capture false w = Ok (tt, w1)
        ∧ on_toggle_capture false w1 = Ok (tt, w1).
Proof.
  run_method. cbn. destruct w as [dr ip rg v m q dq].
  destruct v as [cp em tr om fr cam mc ly vn gi sh], m; cbn.
  destruct tr; cbn; eexists; (split; [reflexivity|]); cbn; reflexivity.
Qed.

(** After [on_toggle_capture] the view and the model agree on capturing and
    the pointer handler is installed exactly while capture is off; every
    other method keeps this, as long as the view's [update] and the model's
    initialisation leave these attributes alone. *)
Theorem wiring_is_kept (c : Call) (w w' : World) :
  (∀ fe v, capturing (view_update fe v) = capturing v
           ∧ on_mouse (view_update fe v) = on_mouse v) →
  (∀ m, flag_capture (model_intialization m) = flag_capture m) →
  run c w = Ok (tt, w') →
  wired w ∨ (∃ is_on, c = OnToggleCapture is_on) →
  wired w'.
Proof.
  intros Hview Hmodel Hrun Hw.
  destruct c; unfold Controller.run in Hrun; run_method; cbn in Hrun;
    repeat case_match; simplify_eq; unfold wired in *; cbn;
    rewrite ?(proj1 (Hview _ _)), ?(proj2 (Hview _ _)), ?Hmodel;
    try (destruct Hw as [Hw|[b [=]]]; done).
  all: by destruct is_on.
Qed.

(** What a method does to the flags of the model is what its body
    assigns: a flag that the body assigns holds the assigned value after the
    call, and every other flag holds the value it had before the call. In
    [on_toggle_model_init], which first calls the model's
    [model_intialization], before the call means as that call left the
    flag. *)
Theorem flags_are_private (c : Call) (fl : Flag) (w w' : World) :
  run c w = Ok (tt, w') →
  get_flag fl (pipeline_model w')
  = match assigns c fl with
    | Some b => b
    | None => get_flag fl (model_call model_intialization c (pipeline_model w))
    end.
Proof.
  intros Hrun.
  destruct c as [?|[]|[]|[]| | |[]| |?|? ? ?|?];
    unfold Controller.run in Hrun; run_method; cbn in Hrun;
    repeat match goal with
           | H : context [match ?x with _ => _ end] |- _ => destruct x eqn:?
           end;
    simplify_eq; by destruct fl.
Qed.

(** The exit request and the two save requests are never withdrawn by the
    controller: once set, they stay set through every method (what
    [model_intialization] does is the model's business). *)
Theorem requests_are_never_withdrawn (c : Call) (fl : Flag) (w w' : World) :
  run c w = Ok (tt, w') →
  (∀ is_enabled, c ≠ OnToggleModelInit is_enabled) →
  fl = FlagExit ∨ fl = FlagSavePcd ∨ fl = FlagSaveRgbd →
  get_flag fl (pipeline_model w) = true →
  get_flag fl (pipeline_model w') = true.
Proof.
  intros Hrun Hc Hfl Hset.
  destruct c; unfold Controller.run in Hrun; run_method; cbn in Hrun;
    repeat case_match; simplify_eq; try by destruct Hfl as [->|[->| ->]].
  by destruct (Hc is_enabled).
Qed.

(** Recording is switched on by [on_toggle_record(True)] and by no other
    assignment in the controller: a method other than
    [on_toggle_record(True)] that finds [flag_record] false leaves it
    false. For [on_toggle_model_init], whose first statement calls the
    model's [model_intialization], this is so whenever that call leaves the
    flag false. *)
Theorem recording_starts_only_on_request (c : Call) (w w' : World) :
  run c w = Ok (tt, w') →
  c ≠ OnToggleRecord true →
  flag_record (pipeline_model w) = false →
  (∀ is_enabled, c = OnToggleModelInit is_enabled →
     flag_record (model_intialization (pipeline_model w)) = false) →
  flag_record (pipeline_model w') = false.
Proof.
  intros Hrun Hc Hoff Hinit.
  destruct c; unfold Controller.run in Hrun; run_method; cbn in Hrun;
    repeat case_match; simplify_eq; cbn in *; try done.
  - by destruct is_enabled.
  - by apply (Hinit is_enabled).
Qed.

(** Every method leaves the lock of the capture condition as deep as it
    found it, and loses no waiter: a thread parked before the call is parked
    or woken after it. The model's initialisation is assumed not to touch
    the condition. *)
Theorem lock_is_balanced (c : Call) (w w' : World) :
  (∀ m, cv_capture (model_intialization m) = cv_capture m) →
  run c w = Ok (tt, w') →
  held (cv_capture (pipeline_model w')) = held (cv_capture (pipeline_model w))
  ∧ woken (cv_capture (pipeline_model w'))
    ++ waiters (cv_capture (pipeline_model w'))
    = woken (cv_capture (pipeline_model w))
      ++ waiters (cv_capture (pipeline_model w)).
Proof.
  intros Hmodel Hrun.
  destruct c; unfold Controller.run in Hrun; run_method; cbn in Hrun;
    repeat case_match; simplify_eq; cbn; rewrite ?Hmodel; try done.
  - split; [done|]. by rewrite <- (assoc_L (++)), take_drop.
  - split; [done|]. by rewrite <- (assoc_L (++)), take_drop.
Qed.

(** No method of the controller raises: whatever the state, each call
    returns. For a depth callback this needs the pixel it was closed over to
    be non-negative, which the pointer handler guarantees. *)
Theorem methods_do_not_raise (c : Call) (w : World) :
  (∀ x y depth_image, c = DepthDone x y depth_image → 0 ≤ x ∧ 0 ≤ y) →
  ∃ w', run c w = Ok (tt, w').
Proof.
  intros Hpixel.
  destruct c; unfold Controller.run; run_method; cbn;
    try (repeat case_match; eexists; reflexivity);
    try (destruct is_on; cbn; repeat case_match; eexists; reflexivity);
    try (destruct (capturing (pipeline_view w)), (edit_mode (pipeline_view w)),
           (ev_type event), (ev_ctrl event), (ev_left event),
           (drawing_rectangle w); cbn;
         try (eexists; reflexivity);
         destruct (_ && _); cbn; eexists; reflexivity).
  destruct (Hpixel x y depth_image eq_refl) as [Hx Hy].
  unfold getitem.
  destruct ((y <? Z.of_nat (shape0 depth_image))
            && (x <? Z.of_nat (shape1 depth_image))) eqn:Hin; cbn.
  - apply andb_true_iff in Hin as [Hyin Hxin].
    destruct (Z.ltb_spec y 0); [lia|]. destruct (Z.ltb_spec x 0); [lia|].
    rewrite Hyin, Hxin.
    destruct (Z.leb_spec 0 y); [|lia]. destruct (Z.leb_spec 0 x); [|lia].
    cbn. destruct (feq _ _); cbn; eexists; reflexivity.
  - destruct (feq _ _); cbn; eexists; reflexivity.
Qed.

(** Frames handed to [update_view] one after the other are queued for the
    main thread in that order, and nothing but the queue changes: the view
    is not touched from the calling thread. *)
Theorem frames_are_posted_in_order (frames : list FrameElements) (w : World) :
  run_all (UpdateView <$> frames) w
  = Ok (tt, set_main_thread_queue
              (main_thread_queue w ++ (ViewUpdate <$> frames)) w).
Proof.
  revert w. induction frames as [|fe frames IH]; intros w; csimpl.
  - rewrite app_nil_r. by destruct w.
  - unfold mbind, M_bind. run_method. cbn. rewrite IH. cbn.
    by rewrite <- (assoc_L (++)).
Qed.
End Facts.

Import Exact ExactFacts.

(** A Ctrl-click at (105, 57) on the idle view queues the query (5, 7). *)
Lemma pointer_event_outcome_witness :
  _on_mouse_widget3d (ctrl_click 105 57) idle_world
  = Ok (HANDLED, set_depth_requests [(5, 7)] idle_world).
Proof.
  apply (pointer_event_outcome flat_unproject thousandths (λ _ v, v) (λ m, m)
           (ctrl_click 105 57) idle_world).
  apply (reachable_init _ _ _ _ parked_model idle_view).
Defined.

(** The state after switching capture off, left alone by a save request. *)
Lemma wiring_is_kept_witness :
  wired (with_model (set_flag FlagSavePcd true)
           (with_model (set_flag FlagCapture false) idle_world)).
Proof.
  apply (wiring_is_kept flat_unproject thousandths (λ _ v, v) (λ m, m)
           OnSavePcd (with_model (set_flag FlagCapture false) idle_world)).
  - done.
  - done.
  - reflexivity.
  - left. split; reflexivity.
Defined.

(** [on_toggle_model_init(True)] with a model whose initialisation asks
    for normals: the normals flag is as the initialisation left it, the
    record flag as it was, and the model-init flag is the argument. *)
Lemma flags_are_private_witness :
  ∃ w',
    on_toggle_model_init (set_flag FlagNormals true) true idle_world
    = Ok (tt, w')
    ∧ flag_normals (pipeline_model w') = true
    ∧ flag_record (pipeline_model w') = flag_record (pipeline_model idle_world)
    ∧ flag_model_init (pipeline_model w') = true.
Proof.
  eexists. split; [reflexivity|].
  match goal with
  | |- flag_normals (pipeline_model ?w') = _ ∧ _ =>
      pose proof (λ fl, flags_are_private flat_unproject thousandths
                          (λ _ v, v) (set_flag FlagNormals true)
                          (OnToggleModelInit true) fl idle_world w' eq_refl)
        as Hflags
  end.
  split; [exact (Hflags FlagNormals)|].
  split; [exact (Hflags FlagRecord)|exact (Hflags FlagModelInit)].
Defined.

(** An exit request survives a save request. *)
Lemma requests_are_never_withdrawn_witness :
  flag_exit
    (pipeline_model
       (with_model (set_flag FlagSavePcd true)
          (with_model (set_flag FlagExit true) idle_world))) = true.
Proof.
  apply (requests_are_never_withdrawn flat_unproject thousandths (λ _ v, v)
           (λ m, m) OnSavePcd FlagExit
           (with_model (set_flag FlagExit true) idle_world)
           (with_model (set_flag FlagSavePcd true)
              (with_model (set_flag FlagExit true) idle_world))).
  - reflexivity.
  - discriminate.
  - by left.
  - reflexivity.
Defined.

(** From a state that is not recording, [on_toggle_model_init(True)] with
    an initialisation that leaves the model as it is does not start
    recording. *)
Lemma recording_starts_only_on_request_witness :
  ∃ w',
    on_toggle_model_init (λ m, m) true
      (with_model (set_flag FlagRecord false) idle_world)
    = Ok (tt, w')
    ∧ flag_record (pipeline_model w') = false.
Proof.
  eexists. split; [reflexivity|].
  match goal with
  | |- flag_record (pipeline_model ?w') = _ =>
      apply (recording_starts_only_on_request flat_unproject thousandths
               (λ _ v, v) (λ m, m) (OnToggleModelInit true)
               (with_model (set_flag FlagRecord false) idle_world) w')
  end.
  - reflexivity.
  - discriminate.
  - reflexivity.
  - intros _ _. reflexivity.
Defined.

(** Switching capture on with two threads parked: one is woken, none is
    lost, and the lock is free again. *)
Lemma lock_is_balanced_witness :
  ∃ w', on_toggle_capture true idle_world = Ok (tt, w')
        ∧ held (cv_capture (pipeline_model w')) = 0%nat
        ∧ woken (cv_capture (pipeline_model w'))
          ++ waiters (cv_capture (pipeline_model w')) = [7%nat; 8%nat].
Proof.
  eexists. split; [reflexivity|].
  match goal with
  | |- held (cv_capture (pipeline_model ?w')) = _ ∧ _ =>
      apply (lock_is_balanced flat_unproject thousandths (λ _ v, v) (λ m, m)
               (OnToggleCapture true) idle_world w')
  end.
  - done.
  - reflexivity.
Defined.

(** A depth callback for pixel (5, 7) returns. *)
Lemma methods_do_not_raise_witness :
  ∃ w', depth_callback flat_unproject thousandths 5 7 (flat_depth (1 # 2))
          idle_world = Ok (tt, w').
Proof.
  apply (methods_do_not_raise flat_unproject thousandths (λ _ v, v) (λ m, m)
           (DepthDone 5 7 (flat_depth (1 # 2))) idle_world).
  intros x y depth_image [= <- <- _]. lia.
Defined.
End ProtocolFacts.

(** * DataTreeWidget: what a click reports *)

Module DataTreeFacts.
Import DataTree.

Lemma index_or_minus_one_new (i : nat) (l : list nat) :
  i ∉ l → index_or_minus_one i (l ++ [i]) = Z.of_nat (length l).
Proof.
  unfold index_or_minus_one. induction l as [|x l IH]; intros Hi; csimpl.
  - by rewrite decide_True.
  - apply not_elem_of_cons in Hi as [Hne Hi]. rewrite decide_False by done.
    specialize (IH Hi). destruct (list_find _ (l ++ [i])) as [[k y]|]; csimpl in *; lia.
Qed.

Lemma index_or_minus_one_other (i n : nat) (l : list nat) :
  n ≠ i → index_or_minus_one i (l ++ [n]) = index_or_minus_one i l.
Proof.
  unfold index_or_minus_one. intros Hne. induction l as [|x l IH]; csimpl.
  - by rewrite decide_False.
  - destruct (decide (x = i)); [done|].
    destruct (list_find _ (l ++ [n])) as [[k y]|],
             (list_find _ l) as [[k' y']|]; csimpl in *; lia.
Qed.

Lemma init_is_sound : sound DataTreeWidget__init__.
Proof.
  unfold sound. cbn.
  repeat split; intros *; rewrite ?lookup_empty; try by intros [? ?].
  - by intros ?%elem_of_nil.
  - done.
  - done.
Qed.

Section Facts.
Variable new_id : gset nat → nat.
Hypothesis new_id_fresh : ∀ X : gset nat, new_id X ∉ X.

Lemma new_item_is_new (self : DataTreeWidget) :
  items self !! new_id (dom (items self)) = None.
Proof. apply not_elem_of_dom, new_id_fresh. Qed.

(** A click on the item that [add_item] has just returned reports the level
    it was given, the root text it was given (its own text when none or an
    empty one was given), the text of its parent ("None" at top level) and,
    as its index, the number of siblings it found. *)
Theorem added_item_is_reported (parent_item : option nat) (text : string)
    (level : Z) (root_text : option string) (column : Z)
    (self : DataTreeWidget) :
  sound self →
  (∀ p, parent_item = Some p → is_Some (items self !! p)) →
  let added := add_item new_id parent_item text level root_text self in
  selected_item (_on_item_clicked added.1 column added.2)
  = {| item := Some added.1;
       level := Some level;
       index_in_level :=
         Some (Z.of_nat (length (siblings_of parent_item self)));
       parent_text :=
         Some match parent_item with
              | Some p => default EmptyString (text_0 <$> items self !! p)
              | None => "None"%string
              end;
       root_text :=
         Some match root_text with
              | Some r => if truthy r then r else text
              | None => text
              end |}.
Proof.
  intros (Htop & Hchild & _) Hparent added. subst added.
  pose proof (new_item_is_new self) as Hnew.
  set (n := new_id (dom (items self))) in *.
  unfold _on_item_clicked, add_item, set_attr. fold n. cbn.
  rewrite !lookup_insert_eq. cbn.
  destruct parent_item as [p|]; cbn.
  - destruct (Hparent p eq_refl) as [it Hit].
    assert (p ≠ n) by (intros ->; congruence).
    rewrite lookup_alter_ne, lookup_insert_eq by done. cbn.
    rewrite lookup_alter_eq, lookup_insert_ne, Hit by done. cbn.
    rewrite index_or_minus_one_new; [done|].
    intros Hin. destruct (Hchild p it n Hit Hin) as [? ?]. congruence.
  - rewrite lookup_insert_eq. cbn.
    rewrite index_or_minus_one_new; [done|].
    intros Hin. destruct (Htop n Hin) as [? ?]. congruence.
Qed.

(** The items after [add_item]: the new one, the parent with one more child,
    and all others as they were. *)
Lemma items_after_add (parent_item : option nat) (text : string) (level : Z)
    (root_text : option string) (self : DataTreeWidget) (q : nat) :
  (∀ p, parent_item = Some p → is_Some (items self !! p)) →
  let n := new_id (dom (items self)) in
  items (add_item new_id parent_item text level root_text self).2 !! q
  = if decide (q = n)
    then Some {| text_0 := text; parent := parent_item; child := [] |}
    else if decide (parent_item = Some q)
         then append_child n <$> items self !! q
         else items self !! q.
Proof.
  intros Hparent n. pose proof (new_item_is_new self) as Hnew. fold n in Hnew.
  unfold add_item. fold n. cbn.
  destruct parent_item as [p|].
  - destruct (Hparent p eq_refl) as [it Hit].
    assert (p ≠ n) by (intros ->; congruence).
    destruct (decide (q = n)) as [->|Hq].
    + by rewrite lookup_alter_ne, lookup_insert_eq.
    + destruct (decide (Some p = Some q)) as [[= ->]|Hpq].
      * by rewrite lookup_alter_eq, lookup_insert_ne.
      * rewrite lookup_alter_ne, lookup_insert_ne by congruence. done.
  - destruct (decide (q = n)) as [->|Hq].
    + by rewrite lookup_insert_eq.
    + rewrite lookup_insert_ne by done. by rewrite decide_False.
Qed.

(** Adding an item does not disturb the others: a click on an item that was
    there before reports after [add_item] what it reported before. *)
Theorem earlier_items_are_undisturbed (parent_item : option nat)
    (text : string) (level : Z) (root_text : option string)
    (i : nat) (column : Z) (self : DataTreeWidget) :
  sound self →
  (∀ p, parent_item = Some p → is_Some (items self !! p)) →
  is_Some (items self !! i) →
  selected_item
    (_on_item_clicked i column
       (add_item new_id parent_item text level root_text self).2)
  = selected_item (_on_item_clicked i column self).
Proof.
  intros (Htop & Hchild & Hpar & _) Hparent [it Hit].
  pose proof (new_item_is_new self) as Hnew.
  pose proof (λ q, items_after_add parent_item text level root_text self q
                     Hparent) as Hitems.
  cbn zeta in Hitems.
  assert (Hlevel : ∀ q, q ≠ new_id (dom (items self)) →
    item_to_level (add_item new_id parent_item text level root_text self).2
    !! q = item_to_level self !! q).
  { intros q Hq. unfold add_item. cbn. by rewrite lookup_insert_ne. }
  assert (Hroot : ∀ q, q ≠ new_id (dom (items self)) →
    item_to_root_text (add_item new_id parent_item text level root_text self).2
    !! q = item_to_root_text self !! q).
  { intros q Hq. unfold add_item. cbn. by rewrite lookup_insert_ne. }
  assert (Htops :
    top_level_items (add_item new_id parent_item text level root_text self).2
    = if parent_item is None
      then top_level_items self ++ [new_id (dom (items self))]
      else top_level_items self) by done.
  set (n := new_id (dom (items self))) in *.
  set (self' := (add_item new_id parent_item text level root_text self).2) in *.
  clearbody self'.
  assert (Hi : i ≠ n) by (intros ->; congruence).
  unfold _on_item_clicked, set_attr.
  rewrite Hlevel, Hroot, Htops, (Hitems i), decide_False by done.
  assert (Hsame :
    (if decide (parent_item = Some i)
     then append_child n <$> items self !! i else items self !! i) ≫= parent
    = items self !! i ≫= parent).
  { case_decide; [|done]. by rewrite Hit. }
  rewrite Hsame, Hit. clear Hsame. cbn.
  destruct (parent it) as [q|] eqn:Hq.
  - destruct (Hpar i it q Hit Hq) as [itq Hitq].
    assert (q ≠ n) by (intros ->; congruence).
    rewrite (Hitems q), decide_False by done.
    case_decide.
    + rewrite Hitq. cbn. rewrite index_or_minus_one_other by done. done.
    + done.
  - destruct parent_item; [done|].
    by rewrite index_or_minus_one_other.
Qed.

Lemma add_item_keeps_sound (parent_item : option nat) (text : string)
    (level : Z) (root_text : option string) (self : DataTreeWidget) :
  sound self →
  (∀ p, parent_item = Some p → is_Some (items self !! p)) →
  sound (add_item new_id parent_item text level root_text self).2.
Proof.
  intros (Htop & Hchild & Hpar & Hlev & Hroot) Hparent.
  pose proof (new_item_is_new self) as Hnew.
  pose proof (λ q, items_after_add parent_item text level root_text self q
                     Hparent) as Hitems.
  cbn zeta in Hitems.
  assert (Hlevel :
    item_to_level (add_item new_id parent_item text level root_text self).2
    = <[new_id (dom (items self)) := level]> (item_to_level self)) by done.
  assert (Hroots : ∃ r,
    item_to_root_text (add_item new_id parent_item text level root_text self).2
    = <[new_id (dom (items self)) := r]> (item_to_root_text self))
    by by eexists.
  destruct Hroots as [r Hroots].
  assert (Htops :
    top_level_items (add_item new_id parent_item text level root_text self).2
    = if parent_item is None
      then top_level_items self ++ [new_id (dom (items self))]
      else top_level_items self) by done.
  set (n := new_id (dom (items self))) in *.
  set (self' := (add_item new_id parent_item text level root_text self).2) in *.
  clearbody self'.
  assert (Hexists : ∀ q, q = n ∨ is_Some (items self !! q) →
                         is_Some (items self' !! q)).
  { intros q Hq. rewrite Hitems. case_decide; [done|].
    destruct Hq as [?|[it Hit]]; [done|]. rewrite Hit. by case_decide. }
  unfold sound. rewrite Hlevel, Hroots, Htops. repeat split.
  - intros i Hi. apply Hexists. destruct parent_item; [by right; apply Htop|].
    apply elem_of_app in Hi as [Hi|Hi%list_elem_of_singleton];
      [by right; apply Htop|by left].
  - intros i it c Hit Hc. apply Hexists. rewrite Hitems in Hit.
    case_decide; [by simplify_eq; apply elem_of_nil in Hc|].
    case_decide.
    + destruct (items self !! i) as [it0|] eqn:Hit0; [|done].
      cbn in Hit. simplify_eq. cbn in Hc.
      apply elem_of_app in Hc as [Hc|Hc%list_elem_of_singleton]; [|by left].
      right. by apply (Hchild i it0).
    + right. by apply (Hchild i it).
  - intros i it p Hit Hp. apply Hexists. right. rewrite Hitems in Hit.
    case_decide; [simplify_eq; cbn in Hp; by apply Hparent|].
    case_decide.
    + destruct (items self !! i) as [it0|] eqn:Hit0; [|done].
      cbn in Hit. simplify_eq. by apply (Hpar i it0).
    + by apply (Hpar i it).
  - intros i Hi. apply Hexists. destruct (decide (i = n)); [by left|].
    rewrite lookup_insert_ne in Hi by done. right. by apply Hlev.
  - intros i Hi. apply Hexists. destruct (decide (i = n)); [by left|].
    rewrite lookup_insert_ne in Hi by done. right. by apply Hroot.
Qed.

(** A widget filled through [add_item] is sound, and every item in it has
    its level and its root text on record: a click on an existing item never
    falls back on the defaults -1 and "None". *)
Theorem built_widgets_are_complete (self : DataTreeWidget) :
  built new_id self →
  sound self
  ∧ ∀ i, is_Some (items self !! i) →
         is_Some (item_to_level self !! i)
         ∧ is_Some (item_to_root_text self !! i).
Proof.
  induction 1 as [|parent_item text level root_text self _ [Hsound Hreg] Hparent
                  |callback self _ IH|i column self _ IH]; [| |done|done].
  { split; [apply init_is_sound|]. by intros i [? ?]. }
  split; [by apply add_item_keeps_sound|].
  intros i. rewrite (items_after_add _ _ _ _ _ _ Hparent). unfold add_item. cbn.
  case_decide as Hi.
  - intros _. subst i. by rewrite !lookup_insert_eq.
  - rewrite !lookup_insert_ne by done. intros Hsome. apply Hreg.
    case_decide; [|done]. by destruct (items self !! i).
Qed.
End Facts.

(** A top-level item "scene" of level 0 and, under it, an item "cloud" of
    level 1 with the root text "scene". *)
Lemma added_item_is_reported_witness :
  let scene := add_item fresh None "scene" 0 None DataTreeWidget__init__ in
  let cloud := add_item fresh (Some scene.1) "cloud" 1 (Some "scene"%string)
                 scene.2 in
  selected_item (_on_item_clicked cloud.1 0 cloud.2)
  = {| item := Some cloud.1; level := Some 1; index_in_level := Some 0;
       parent_text := Some "scene"%string; root_text := Some "scene"%string |}.
Proof.
  intros scene cloud.
  pose proof (added_item_is_reported fresh is_fresh (Some scene.1) "cloud" 1
                (Some "scene"%string) 0 scene.2) as Hreport.
  cbn zeta in Hreport. fold cloud in Hreport. rewrite Hreport.
  - reflexivity.
  - apply add_item_keeps_sound; [apply is_fresh|apply init_is_sound|done].
  - intros p [= <-]. by eexists.
Defined.

(** Adding "cloud" leaves what a click on "scene" reports. *)
Lemma earlier_items_are_undisturbed_witness :
  let scene := add_item fresh None "scene" 0 None DataTreeWidget__init__ in
  let cloud := add_item fresh (Some scene.1) "cloud" 1 (Some "scene"%string)
                 scene.2 in
  selected_item (_on_item_clicked scene.1 0 cloud.2)
  = selected_item (_on_item_clicked scene.1 0 scene.2).
Proof.
  intros scene cloud.
  apply (earlier_items_are_undisturbed fresh is_fresh (Some scene.1) "cloud" 1
           (Some "scene"%string) scene.1 0 scene.2).
  - apply add_item_keeps_sound; [apply is_fresh|apply init_is_sound|done].
  - intros p [= <-]. by eexists.
  - by eexists.
Defined.

Lemma built_widgets_are_complete_witness :
  let scene := add_item fresh None "scene" 0 None DataTreeWidget__init__ in
  sound scene.2
  ∧ ∀ i, is_Some (items scene.2 !! i) →
         is_Some (item_to_level scene.2 !! i)
         ∧ is_Some (item_to_root_text scene.2 !! i).
Proof.
  intros scene.
  apply (built_widgets_are_complete fresh is_fresh).
  apply built_add; [apply built_init|done].
Defined.
End DataTreeFacts.
